(** * WordPress MCP server: dispatch core, API keys and site sessions

    A shallow embedding of three classes of the server and the properties
    their documentation states:

    - [JsonRpc]: [JsonRpcHandler] (src/json-rpc/handler.ts) with the types of
      src/types/json-rpc.ts and src/types/context.ts;
    - [ApiKeys]: [ApiKeyManager] (src/middleware/auth.ts);
    - [Sites]: [WordPressSiteManager] (src/wordpress/site-manager.ts).

    JavaScript values are an inductive type of JSON data extended with
    [undefined]; thrown errors are explicit ([completion]); object state
    (the method registry, the key set, the site and client maps) is passed
    explicitly. *)

From Stdlib Require Import ZArith List Ascii String.
From stdpp Require Import gmap strings list pretty.
Import ListNotations.

Open Scope string_scope.
Set Warnings "-register-all".

(** ** JavaScript values *)

(** What a request body, a parameter object or a handler result can be.
    Numbers enter the code only through identity and truthiness, they are
    integers here. An object is the list of its properties in order; reading
    a property takes the first binding of the name. *)
Inductive value : Type :=
| VUndefined
| VNull
| VBool (b : bool)
| VNum (n : Z)
| VStr (s : string)
| VArr (items : list value)
| VObj (fields : list (string * value)).

Inductive jstype := TUndefined | TObject | TBoolean | TNumber | TString.

(** [typeof v] *)
Definition typeof (v : value) : jstype :=
  match v with
  | VUndefined => TUndefined
  | VNull | VArr _ | VObj _ => TObject
  | VBool _ => TBoolean
  | VNum _ => TNumber
  | VStr _ => TString
  end.

Definition is_object (v : value) : bool :=
  match typeof v with TObject => true | _ => false end.
Definition is_string (v : value) : bool :=
  match typeof v with TString => true | _ => false end.
Definition is_number (v : value) : bool :=
  match typeof v with TNumber => true | _ => false end.
Definition is_undefined (v : value) : bool :=
  match v with VUndefined => true | _ => false end.
Definition is_null (v : value) : bool :=
  match v with VNull => true | _ => false end.

(** [!v] is [negb (truthy v)] *)
Definition truthy (v : value) : bool :=
  match v with
  | VUndefined | VNull | VBool false => false
  | VNum n => negb (Z.eqb n 0)
  | VStr s => negb (String.eqb s "")
  | _ => true
  end.

(** [Array.isArray(v)] *)
Definition isArray (v : value) : bool :=
  match v with VArr _ => true | _ => false end.

Fixpoint assoc (k : string) (fields : list (string * value)) : value :=
  match fields with
  | [] => VUndefined
  | (k', v) :: rest => if String.eqb k k' then v else assoc k rest
  end.

(** [v.k] for a [v] that is neither null nor undefined: a property the
    value does not have reads as [undefined]; the four names the handler
    reads ([jsonrpc], [method], [params], [id]) are properties of objects
    only. *)
Definition get (k : string) (v : value) : value :=
  match v with
  | VObj fields => assoc k fields
  | _ => VUndefined
  end.

(** [v === s] for a string literal [s] *)
Definition str_eq (v : value) (s : string) : bool :=
  match v with VStr s' => String.eqb s' s | _ => false end.

(** The character [U+0022], for the messages that quote a literal. *)
Definition dquote : string := String (Ascii.ascii_of_nat 34) "".

(** ** Thrown errors *)

(** The errors a schema or a handler throws, by what the catch clauses look
    at: [instanceof JsonRpcError], [error.name], [error.message],
    [error.format()]. [ZodError] is zod's class, with its [format] method;
    [OtherError] is any other [Error], of any name. *)
Inductive thrown : Type :=
| JsonRpcError (message : string) (code : Z) (data : value)
| ZodError (message : string) (formatted : value)
| OtherError (name : string) (message : string).

Definition error_name (e : thrown) : string :=
  match e with
  | JsonRpcError _ _ _ => "JsonRpcError"
  | ZodError _ _ => "ZodError"
  | OtherError n _ => n
  end.

Definition error_message (e : thrown) : string :=
  match e with
  | JsonRpcError m _ _ | ZodError m _ | OtherError _ m => m
  end.

(** How a call ends: with a value, or with a throw (a rejected promise). *)
Inductive completion (A : Type) : Type :=
| Return (a : A)
| Throw (e : thrown).
Arguments Return {A} a.
Arguments Throw {A} e.

Definition bind {A B} (c : completion A) (k : A -> completion B)
  : completion B :=
  match c with
  | Return a => k a
  | Throw e => Throw e
  end.

(** [try { c } catch (error) { h error }] *)
Definition try_catch {A} (c : completion A) (h : thrown -> completion A)
  : completion A :=
  match c with
  | Return a => Return a
  | Throw e => h e
  end.

Module JsonRpc.

(** *** src/types/context.ts *)

Record AuthContext := {
  clientId : string;
  authorizedSites : list string;
  permissions : list string;
  scopes : list string
}.

(** [startTime] is left out, no result depends on it. *)
Record RequestContext := {
  correlationId : string;
  path : list string;
  authContext : option AuthContext
}.

(** [createChild(pathSegment?)]: the child takes the correlation id, the
    authorization and a copy of the path, extended by the segment if one is
    given (and not empty). *)
Definition createChild (this : RequestContext) (pathSegment : option string)
  : RequestContext :=
  {| correlationId := correlationId this;
     path := path this ++
             match pathSegment with
             | Some s => if String.eqb s "" then [] else [s]
             | None => []
             end;
     authContext := authContext this |}.

(** *** src/types/json-rpc.ts *)

Record JsonRpcErrorObject := {
  code : Z;
  message : string;
  data : value
}.

(** Every response has [jsonrpc: '2.0']; the field is constant and left
    out. *)
Inductive JsonRpcResponse : Type :=
| SuccessResponse (result : value) (id : value)
| ErrorResponse (error : JsonRpcErrorObject) (id : value).

Definition response_id (r : JsonRpcResponse) : value :=
  match r with
  | SuccessResponse _ i | ErrorResponse _ i => i
  end.

Record MethodHandler := {
  name : string;
  description : option string;
  schema : value -> completion value;
  handler : value -> RequestContext -> completion value
}.

(** *** src/json-rpc/handler.ts *)

Definition PARSE_ERROR : Z := -32700.
Definition INVALID_REQUEST : Z := -32600.
Definition METHOD_NOT_FOUND : Z := -32601.
Definition INVALID_PARAMS : Z := -32602.
Definition INTERNAL_ERROR : Z := -32603.
Definition WP_AUTH_ERROR : Z := -32000.
Definition WP_PERMISSION_ERROR : Z := -32001.
Definition WP_RESOURCE_NOT_FOUND : Z := -32002.
Definition WP_VALIDATION_ERROR : Z := -32003.
Definition RATE_LIMIT_EXCEEDED : Z := -32029.

(** [registerMethod]: [this.methods.set(name, {handler, schema, name,
    description})]. The body has no [throw]. *)
Definition registerMethod (name : string)
    (handler : value -> RequestContext -> completion value)
    (schema : value -> completion value)
    (description : option string)
    (methods : gmap string MethodHandler) : gmap string MethodHandler :=
  <[name := {| name := name; description := description;
               schema := schema; handler := handler |}]> methods.

(** [getRegisteredMethods] (as a set: the order of the keys is not used) *)
Definition getRegisteredMethods (methods : gmap string MethodHandler)
  : gset string := dom methods.

Record validation := {
  valid : bool;
  validation_id : value;
  validation_error : value
}.

Definition validateRequest (request : value) : validation :=
  if negb (truthy request) || negb (is_object request) then
    {| valid := false; validation_id := VUndefined;
       validation_error := VStr "Request must be an object" |}
  else if negb (str_eq (get "jsonrpc" request) "2.0") then
    {| valid := false; validation_id := get "id" request;
       validation_error :=
         VStr ("Invalid or missing jsonrpc field (must be " +:+ dquote
               +:+ "2.0" +:+ dquote +:+ ")") |}
  else if negb (is_string (get "method" request))
          || str_eq (get "method" request) "" then
    {| valid := false; validation_id := get "id" request;
       validation_error := VStr "Method must be a non-empty string" |}
  else if negb (is_undefined (get "params" request))
          && (negb (is_object (get "params" request))
              || is_null (get "params" request)) then
    {| valid := false; validation_id := get "id" request;
       validation_error := VStr "Params must be an object or array" |}
  else if negb (is_undefined (get "id" request))
          && negb (is_null (get "id" request))
          && negb (is_string (get "id" request))
          && negb (is_number (get "id" request)) then
    {| valid := false; validation_id := VNull;
       validation_error :=
         VStr "Id must be string, number, null, or undefined" |}
  else
    {| valid := true; validation_id := get "id" request;
       validation_error := VUndefined |}.

Definition createErrorResponse (id : value) (code : Z) (message : string)
    (data : value) : JsonRpcResponse :=
  ErrorResponse {| code := code; message := message; data := data |} id.

Section Handler.

(** The state of one handler: the method registry; and whether
    [process.env.NODE_ENV === 'development']. *)
Variable methods : gmap string MethodHandler.
Variable development : bool.

(** [invokeMethod]: the lookup, then schema and handler inside one [try].
    The catch clause reads [error.name]; on ['ZodError'] it calls
    [error.format()], which an error of that name but of another class
    does not have (a [TypeError]). *)
Definition invokeMethod (methodName : string) (params : value)
    (context : RequestContext) : completion value :=
  match methods !! methodName with
  | None =>
      Throw (JsonRpcError ("Method not found: " +:+ methodName)
                          METHOD_NOT_FOUND VUndefined)
  | Some method =>
      try_catch
        (bind (schema method params)
              (fun validatedParams => handler method validatedParams context))
        (fun error =>
           if String.eqb (error_name error) "ZodError" then
             match error with
             | ZodError msg formatted =>
                 Throw (JsonRpcError ("Invalid params: " +:+ msg)
                                     INVALID_PARAMS formatted)
             | _ => Throw (OtherError "TypeError"
                                      "error.format is not a function")
             end
           else Throw error)
  end.

Definition handleMethodError (id : value) (error : thrown)
  : JsonRpcResponse :=
  match error with
  | JsonRpcError msg c d => createErrorResponse id c msg d
  | _ =>
      createErrorResponse id INTERNAL_ERROR "Internal server error"
        (if development then VStr (error_message error) else VUndefined)
  end.

(** What [processRequest] resolves to: [null], one response, or an array.
    The entries of the array are what the calls on the elements resolve to,
    so an array can hold arrays. *)
Inductive reply : Type :=
| RNull
| RResponse (r : JsonRpcResponse)
| RArray (rs : list reply).

Definition is_RNull (r : reply) : bool :=
  match r with RNull => true | _ => false end.

(** [rpcRequest.method], a string once the request is validated *)
Definition method_of (request : value) : string :=
  match get "method" request with VStr m => m | _ => "" end.

(** [processRequest] on a request that is not an array. The outer [catch]
    receives what the notification branch throws; the inner [try] covers the
    branch of a call with an id. *)
Definition processSingle (request : value) (context : RequestContext)
  : reply :=
  let validationResult := validateRequest request in
  if negb (valid validationResult) then
    RResponse (createErrorResponse (validation_id validationResult)
                 INVALID_REQUEST "Invalid Request"
                 (validation_error validationResult))
  else if is_undefined (get "id" request) then
    match invokeMethod (method_of request) (get "params" request) context with
    | Return _ => RNull
    | Throw error =>
        RResponse (createErrorResponse VNull INTERNAL_ERROR "Internal error"
                     (VObj [("message", VStr (error_message error))]))
    end
  else
    match invokeMethod (method_of request) (get "params" request) context with
    | Return result => RResponse (SuccessResponse result (get "id" request))
    | Throw error => RResponse (handleMethodError (get "id" request) error)
    end.

(** [processBatchRequest], over the function that processes one element:
    [Promise.all] resolves to the results in the order of the array,
    [filter] drops the [null]s. *)
Definition processBatchRequest
    (process : value -> RequestContext -> reply)
    (requests : list value) (context : RequestContext) : list reply :=
  match requests with
  | [] =>
      [RResponse (ErrorResponse
                    {| code := INVALID_REQUEST;
                       message := "Invalid Request: Empty batch";
                       data := VUndefined |} VNull)]
  | _ =>
      List.filter (fun response => negb (is_RNull response))
        (List.map (fun request => process request (createChild context None))
                  requests)
  end.

Fixpoint processRequest (request : value) (context : RequestContext)
  : reply :=
  match request with
  | VArr requests =>
      RArray (processBatchRequest processRequest requests context)
  | _ => processSingle request context
  end.

End Handler.

End JsonRpc.

Module ApiKeys.

(** *** src/middleware/auth.ts *)

(** A date field ([created], [expires]) is a string; the code looks at its
    truthiness and at [new Date(s)]. The string is held as what these make
    of it: the empty string, a date with its time value in milliseconds, or
    a text that is no date ([new Date(s)] is an Invalid Date, its time value
    [NaN]). *)
Inductive DateString : Type :=
| EmptyDate
| IsoDate (ms : Z)
| NotADate.

Record ApiKey := {
  key : string;
  name : string;
  clientId : string;
  permissions : list string;
  authorizedSites : list string;
  active : bool;
  created : DateString;
  expires : option DateString
}.

(** [ApiKeyStorage]; [storage_keys] is [None] when [storage.keys] is
    falsy, so that [storage.keys || []] is the empty array. *)
Record ApiKeyStorage := { storage_keys : option (list ApiKey) }.

(** A text by what [JSON.parse(text) as ApiKeyStorage] followed by the read
    of [.keys] makes of it: [Malformed] when one of the two throws. *)
Inductive document : Type :=
| Malformed
| Storage (storage : ApiKeyStorage).

(** What the manager reads from outside at one moment: the clock, the file
    system ([None]: [fs.readFile] rejects) and [process.env] (a variable
    that is not set, or empty, is [None]: the code tests truthiness). *)
Record World := {
  now : Z;
  readFile : string -> option document;
  API_KEYS : option document;
  API_KEY : option string;
  API_CLIENT_ID : option string;
  API_PERMISSIONS : option string;
  API_AUTHORIZED_SITES : option string
}.

Record ApiKeyManager := {
  source : string;
  path : string;
  keys : list ApiKey;
  loading : bool;
  lastLoaded : Z
}.

Definition set_keys (ks : list ApiKey) (m : ApiKeyManager) : ApiKeyManager :=
  {| source := source m; path := path m; keys := ks;
     loading := loading m; lastLoaded := lastLoaded m |}.
Definition set_loading (b : bool) (m : ApiKeyManager) : ApiKeyManager :=
  {| source := source m; path := path m; keys := keys m;
     loading := b; lastLoaded := lastLoaded m |}.
Definition set_lastLoaded (t : Z) (m : ApiKeyManager) : ApiKeyManager :=
  {| source := source m; path := path m; keys := keys m;
     loading := loading m; lastLoaded := t |}.

(** [new ApiKeyManager(source, path)] *)
Definition create (source path : string) : ApiKeyManager :=
  {| source := source; path := path; keys := [];
     loading := false; lastLoaded := 0 |}.

Inductive ValidationResult : Type :=
| Invalid
| Valid (clientId : string) (authorizedSites permissions scopes : list string).

Definition valid (r : ValidationResult) : bool :=
  match r with Invalid => false | Valid _ _ _ _ => true end.

(** [s.split(',')] *)
Fixpoint split_comma_from (acc : string) (s : string) : list string :=
  match s with
  | EmptyString => [String.rev acc]
  | String c rest =>
      if Ascii.eqb c ","%char then String.rev acc :: split_comma_from "" rest
      else split_comma_from (String c acc) rest
  end.
Definition split_comma (s : string) : list string := split_comma_from "" s.

(** [loadKeysFromFile]: read, parse, then the one assignment to
    [this.keys]; the catch clause logs and throws the error again. *)
Definition loadKeysFromFile (w : World) (this : ApiKeyManager)
  : completion ApiKeyManager :=
  try_catch
    match readFile w (path this) with
    | None => Throw (OtherError "Error" "ENOENT: no such file or directory")
    | Some Malformed => Throw (OtherError "SyntaxError" "Unexpected token")
    | Some (Storage storage) =>
        Return (set_keys (default [] (storage_keys storage)) this)
    end
    (fun error => Throw error).

(** [loadKeysFromEnv]: the JSON variable first; when it is absent or does
    not parse, the single key; else no key at all. *)
Definition loadKeysFromEnv (w : World) (this : ApiKeyManager)
  : completion ApiKeyManager :=
  try_catch
    match API_KEYS w with
    | Some (Storage storage) =>
        Return (set_keys (default [] (storage_keys storage)) this)
    | _ =>
        match API_KEY w with
        | Some singleKey =>
            Return (set_keys
              [ {| key := singleKey;
                   name := "Environment API Key";
                   clientId := default "default-client" (API_CLIENT_ID w);
                   permissions :=
                     split_comma (default "read,write" (API_PERMISSIONS w));
                   authorizedSites :=
                     split_comma (default "*" (API_AUTHORIZED_SITES w));
                   active := true;
                   created := IsoDate (now w);
                   expires := None |} ] this)
        | None => Return (set_keys [] this)
        end
    end
    (fun error => Throw error).

(** The [try] block of [loadKeys]: the loader of the source, then
    [this.lastLoaded = Date.now()]. *)
Definition loadKeys_try (w : World) (this : ApiKeyManager)
  : completion ApiKeyManager :=
  bind (if String.eqb (source this) "file" then loadKeysFromFile w this
        else if String.eqb (source this) "env" then loadKeysFromEnv w this
        else Return this)
       (fun this' => Return (set_lastLoaded (now w) this')).

(** [try { ... } catch (error) { log } finally { this.loading = false }].
    A loader throws before it writes a field, so the state at the catch is
    the state at the [try]. *)
Definition loadKeys_guarded (w : World) (this : ApiKeyManager)
  : completion ApiKeyManager :=
  match try_catch (loadKeys_try w this) (fun error => Return this) with
  | Return this' => Return (set_loading false this')
  | Throw error => Throw error
  end.

(** [await this.loadKeys()], as [initialize] does. *)
Definition loadKeys (w : World) (this : ApiKeyManager)
  : completion ApiKeyManager :=
  if loading this then Return this
  else loadKeys_guarded w (set_loading true this).

Definition initialize (w : World) (this : ApiKeyManager)
  : completion ApiKeyManager := loadKeys w this.

(** [this.loadKeys()] that is not awaited runs up to its first [await]:
    with the file source that is the read of the file, and the call leaves
    [loading] set; with any other source the body has no [await] and runs to
    its end. The promise it returns is the one [reloadIfNeeded] attaches its
    [catch] to. *)
Definition loadKeys_started (w : World) (this : ApiKeyManager)
  : ApiKeyManager :=
  if loading this then this
  else if String.eqb (source this) "file" then set_loading true this
  else match loadKeys_guarded w (set_loading true this) with
       | Return this' => this'
       | Throw _ => set_loading true this
       end.

(** The rest of a started load from the file, run when the read settles. *)
Definition loadKeys_settled (w : World) (this : ApiKeyManager)
  : ApiKeyManager :=
  match loadKeys_guarded w this with
  | Return this' => this'
  | Throw _ => this
  end.

Definition RELOAD_INTERVAL : Z := 5 * 60 * 1000.

Definition reloadIfNeeded (w : World) (this : ApiKeyManager)
  : ApiKeyManager :=
  if (now w - lastLoaded this >? RELOAD_INTERVAL)%Z
  then loadKeys_started w this
  else this.

(** [key.expires && new Date(key.expires) < new Date()]: a comparison with
    [NaN] is false. *)
Definition expired (w : World) (k : ApiKey) : bool :=
  match expires k with
  | None | Some EmptyDate | Some NotADate => false
  | Some (IsoDate t) => (t <? now w)%Z
  end.

(** [validateApiKey]: the result, and the manager as the call leaves it. *)
Definition validateApiKey (w : World) (apiKey : string)
    (this : ApiKeyManager) : ValidationResult * ApiKeyManager :=
  let this' := reloadIfNeeded w this in
  (match List.find (fun k => String.eqb (key k) apiKey) (keys this') with
   | None => Invalid
   | Some k =>
       if negb (active k) then Invalid
       else if expired w k then Invalid
       else Valid (clientId k) (authorizedSites k) (permissions k) []
   end,
   this').

End ApiKeys.

Module Sites.

(** *** src/wordpress/site-manager.ts *)

Record Credentials := {
  username : string;
  applicationPassword : string
}.

Definition credentials_value (c : Credentials) : value :=
  VObj [("username", VStr (username c));
        ("applicationPassword", VStr (applicationPassword c))].

(** A [WordPressSiteConfig] is the list of the properties of the object. *)
Abbreviation fields := (list (string * value)).

Definition has_key (k : string) (o : fields) : bool :=
  existsb (fun kv => String.eqb (fst kv) k) o.

(** [const { k, ...rest } = o]: the properties of [o] other than [k] *)
Definition without (k : string) (o : fields) : fields :=
  List.filter (fun kv => negb (String.eqb (fst kv) k)) o.

(** [{ ...o, k: v }]: [k] keeps its place when [o] has it, else comes last *)
Fixpoint with_field (k : string) (v : value) (o : fields) : fields :=
  match o with
  | [] => [(k, v)]
  | (k', v') :: rest =>
      if String.eqb k' k then (k, v) :: rest
      else (k', v') :: with_field k v rest
  end.

(** The elements of an array under their indices, from index [i] on. *)
Fixpoint indexed (i : nat) (items : list value) : fields :=
  match items with
  | [] => []
  | item :: rest => (pretty i, item) :: indexed (S i) rest
  end.

(** The characters of a text under their indices, from index [i] on. *)
Fixpoint characters (i : nat) (s : string) : fields :=
  match s with
  | EmptyString => []
  | String c rest => (pretty i, VStr (String c "")) :: characters (S i) rest
  end.

(** The own enumerable properties of a value, which [{ ...v }] copies and
    [Object.entries(v)] lists: those of an object; the elements of an
    array and the characters of a text under their indices; none for a
    number or a boolean (nor, in a spread, for null and undefined). *)
Definition entries (v : value) : fields :=
  match v with
  | VObj o => o
  | VArr items => indexed 0 items
  | VStr s => characters 0 s
  | _ => []
  end.

(** What [JSON.parse(JSON.stringify(v))] is: a property whose value is
    undefined is not written, an element of an array that is undefined is
    written as null. *)
Fixpoint serialised (v : value) : value :=
  match v with
  | VArr items =>
      VArr (List.map (fun item => if is_undefined item then VNull
                                  else serialised item) items)
  | VObj o =>
      VObj ((fix properties (l : list (string * value)) :=
               match l with
               | [] => []
               | (k, x) :: rest =>
                   if is_undefined x then properties rest
                   else (k, serialised x) :: properties rest
               end) o)
  | _ => v
  end.

(** The properties of [serialised (VObj o)]. *)
Fixpoint serialised_properties (o : fields) : fields :=
  match o with
  | [] => []
  | (k, x) :: rest =>
      if is_undefined x then serialised_properties rest
      else (k, serialised x) :: serialised_properties rest
  end.

(** [SecretsManager]: the interface the site manager is given, over the
    state of the store behind it. *)
Record SecretsManager (secrets : Type) := {
  getCredentials : string -> secrets -> completion Credentials;
  storeCredentials : string -> Credentials -> secrets -> completion secrets
}.
Arguments getCredentials {secrets} _ _ _.
Arguments storeCredentials {secrets} _ _ _ _.

(** A file is a text that parses as JSON, or one that does not. *)
Inductive content : Type :=
| Text
| Json (v : value).

(** The file system: the files, and whether a write to a path goes
    through. A JSON text is held as the value it parses to. *)
Record FileSystem := {
  files : gmap string content;
  writable : string -> bool
}.

Definition writeFile (path : string) (data : value) (fs : FileSystem)
  : completion FileSystem :=
  if writable fs path
  then Return {| files := <[path := Json data]> (files fs);
                 writable := writable fs |}
  else Throw (OtherError "Error" "EACCES: permission denied").

(** [WordPressClient]: the configuration it was built from, and the base
    URL without its trailing slash. *)
Record WordPressClient := {
  config : fields;
  baseUrl : string
}.

(** [s.replace(/\/$/, '')] *)
Fixpoint strip_trailing_slash (s : string) : string :=
  match s with
  | EmptyString => EmptyString
  | String c rest =>
      match rest with
      | EmptyString => if Ascii.eqb c "/"%char then EmptyString else s
      | _ => String c (strip_trailing_slash rest)
      end
  end.

(** [new WordPressClient(config)]: [config.baseUrl.replace] throws when
    the base URL is not a string, and [config.credentials.username], read
    for the HTTP client, throws when [credentials] is undefined or null. *)
Definition newWordPressClient (config : fields)
  : completion WordPressClient :=
  match assoc "baseUrl" config with
  | VStr url =>
      if is_undefined (assoc "credentials" config)
         || is_null (assoc "credentials" config)
      then Throw (OtherError "TypeError"
                    "Cannot read properties of undefined (reading 'username')")
      else Return {| config := config;
                     baseUrl := strip_trailing_slash url |}
  | _ => Throw (OtherError "TypeError"
                  "Cannot read properties of undefined (reading 'replace')")
  end.

Record WordPressSiteManager := {
  configPath : string;
  sites : gmap string fields;
  clients : gmap string WordPressClient
}.

Definition set_sites (s : gmap string fields) (m : WordPressSiteManager)
  : WordPressSiteManager :=
  {| configPath := configPath m; sites := s; clients := clients m |}.
Definition set_clients (c : gmap string WordPressClient)
    (m : WordPressSiteManager) : WordPressSiteManager :=
  {| configPath := configPath m; sites := sites m; clients := c |}.

(** What a call of [getClient] does: how it ends, the manager it leaves,
    and the clients it constructed. *)
Record GetClient := {
  outcome : completion WordPressClient;
  after : WordPressSiteManager;
  constructed : list WordPressClient
}.

(** [getClient(siteId)]; [checkConnection] is what the probe of a client
    answers at the time of the call (the method catches every error and
    answers [false]). *)
Definition getClient (checkConnection : WordPressClient -> bool)
    (siteId : string) (this : WordPressSiteManager) : GetClient :=
  match sites this !! siteId with
  | None =>
      {| outcome := Throw (JsonRpcError
                             ("Unknown WordPress site: " +:+ siteId)
                             (-32001) (VObj [("siteId", VStr siteId)]));
         after := this; constructed := [] |}
  | Some config =>
      match clients this !! siteId with
      | Some client =>
          {| outcome := Return client; after := this; constructed := [] |}
      | None =>
          match newWordPressClient config with
          | Throw error =>
              {| outcome := Throw error; after := this; constructed := [] |}
          | Return client =>
              if negb (checkConnection client) then
                {| outcome := Throw (JsonRpcError
                     ("Failed to connect to WordPress site: " +:+ siteId)
                     (-32002) (VObj [("siteId", VStr siteId)]));
                   after := this; constructed := [client] |}
              else
                {| outcome := Return client;
                   after := set_clients (<[siteId := client]> (clients this))
                                        this;
                   constructed := [client] |}
          end
      end
  end.

(** [getSiteIds] (as a set) *)
Definition getSiteIds (this : WordPressSiteManager) : gset string :=
  dom (sites this).

(** [getSiteConfig(siteId)]; [None] is [null]. *)
Definition getSiteConfig (siteId : string) (this : WordPressSiteManager)
  : option fields :=
  match sites this !! siteId with
  | None => None
  | Some config => Some (without "credentials" config)
  end.

(** The object [{ sites: sitesConfig }] that [saveSiteConfigurations]
    builds. [sitesConfig] is a plain object filled by
    [sitesConfig[siteId] = safeConfig]: for the name [__proto__] the
    assignment sets the prototype of [sitesConfig] and makes no property. *)
Definition sitesDocument (this : WordPressSiteManager) : value :=
  VObj [("sites",
         VObj (map_to_list
                 ((fun config => VObj (without "credentials" config))
                    <$> delete "__proto__" (sites this))))].

(** [saveSiteConfigurations]: the file receives [JSON.stringify] of the
    object. *)
Definition saveSiteConfigurations (fs : FileSystem)
    (this : WordPressSiteManager) : completion FileSystem :=
  try_catch
    (writeFile (configPath this) (serialised (sitesDocument this)) fs)
    (fun error =>
       Throw (OtherError "Error" "Failed to save site configurations")).

(** The manager with the two stores it works on. *)
Record System (secrets : Type) := {
  manager : WordPressSiteManager;
  vault : secrets;
  disk : FileSystem
}.
Arguments manager {secrets} _.
Arguments vault {secrets} _.
Arguments disk {secrets} _.
Arguments Build_System {secrets} _ _ _.

Section Manager.

Context {secrets : Type}.
Variable secretsManager : SecretsManager secrets.

(** The loop of [loadSiteConfigurations]: a site whose credentials do not
    resolve is logged and left out. *)
Fixpoint loadSites (vault : secrets) (todo : fields)
    (sites : gmap string fields) : gmap string fields :=
  match todo with
  | [] => sites
  | (siteId, siteConfig) :: rest =>
      match getCredentials secretsManager siteId vault with
      | Return credentials =>
          loadSites vault rest
            (<[siteId := with_field "credentials"
                           (credentials_value credentials)
                           (entries siteConfig)]> sites)
      | Throw _ => loadSites vault rest sites
      end
  end.

(** [loadSiteConfigurations]: every failure inside the [try] becomes
    ['Site configuration failed to load']; the read of [config.sites],
    which throws for null (and for undefined), comes after
    [this.sites.clear()]. *)
Definition loadSiteConfigurations (s : System secrets)
  : completion unit * System secrets :=
  let failed := Throw (OtherError "Error" "Site configuration failed to load") in
  match files (disk s) !! configPath (manager s) with
  | None | Some Text => (failed, s)
  | Some (Json config) =>
      let cleared := set_sites ∅ (manager s) in
      if is_null config || is_undefined config then
        (failed, Build_System cleared (vault s) (disk s))
      else
        let listed :=
          if truthy (get "sites" config) then entries (get "sites" config)
          else [] in
        (Return tt,
         Build_System (set_sites (loadSites (vault s) listed ∅) cleared)
                      (vault s) (disk s))
  end.

Definition initialize (s : System secrets)
  : completion unit * System secrets := loadSiteConfigurations s.

(** [addSite(siteId, config, credentials)] *)
Definition addSite (siteId : string) (config : fields)
    (credentials : Credentials) (s : System secrets)
  : completion unit * System secrets :=
  match storeCredentials secretsManager siteId credentials (vault s) with
  | Throw error => (Throw error, s)
  | Return vault' =>
      let this :=
        set_sites (<[siteId := with_field "credentials"
                                 (credentials_value credentials) config]>
                     (sites (manager s))) (manager s) in
      match saveSiteConfigurations (disk s) this with
      | Throw error => (Throw error, Build_System this vault' (disk s))
      | Return disk' => (Return tt, Build_System this vault' disk')
      end
  end.

(** [removeSite(siteId)] *)
Definition removeSite (siteId : string) (s : System secrets)
  : completion unit * System secrets :=
  let this1 :=
    set_clients (delete siteId (clients (manager s))) (manager s) in
  match sites this1 !! siteId with
  | None => (Return tt, Build_System this1 (vault s) (disk s))
  | Some _ =>
      let this2 := set_sites (delete siteId (sites this1)) this1 in
      match saveSiteConfigurations (disk s) this2 with
      | Throw error => (Throw error, Build_System this2 (vault s) (disk s))
      | Return disk' => (Return tt, Build_System this2 (vault s) disk')
      end
  end.

(** The calls on a manager, with what the outside answers to each. *)
Inductive call : Type :=
| Initialize
| GetClientCall (siteId : string) (checkConnection : WordPressClient -> bool)
| AddSite (siteId : string) (config : fields) (credentials : Credentials)
| RemoveSite (siteId : string).

Definition step (c : call) (s : System secrets) : System secrets :=
  match c with
  | Initialize => snd (initialize s)
  | GetClientCall siteId checkConnection =>
      Build_System (after (getClient checkConnection siteId (manager s)))
                   (vault s) (disk s)
  | AddSite siteId config credentials =>
      snd (addSite siteId config credentials s)
  | RemoveSite siteId => snd (removeSite siteId s)
  end.

(** The calls of a history, oldest first. *)
Definition run (history : list call) (s : System secrets)
  : System secrets :=
  fold_left (fun s c => step c s) history s.

End Manager.

End Sites.

Module Middleware.

(** *** src/middleware/auth.ts, [createAuthMiddleware] *)

(** What the middleware reads of the request: [req.header(name)], which is
    [undefined] ([None]) for a header that is absent. *)
Record HttpRequest := {
  header : string -> option string;
  ip : string
}.

(** How the middleware ends: with [res.status(s).json(body)], or with
    [next()] after it has set [req.authContext] and, in development, the
    response header [X-MCP-Client]. *)
Inductive MiddlewareResult : Type :=
| Respond (status : Z) (body : JsonRpc.JsonRpcResponse)
| Next (authContext : JsonRpc.AuthContext) (X_MCP_Client : option string).

(** [a || b] on header values: [a] when it is a non-empty string *)
Definition or_header (a b : option string) : option string :=
  match a with
  | Some s => if String.eqb s "" then b else a
  | None => b
  end.

(** [!apiKey] *)
Definition no_key (apiKey : option string) : bool :=
  match apiKey with
  | Some s => String.eqb s ""
  | None => true
  end.

Definition unauthorized (message : string) : MiddlewareResult :=
  Respond 401
    (JsonRpc.ErrorResponse
       {| JsonRpc.code := JsonRpc.WP_AUTH_ERROR;
          JsonRpc.message := message;
          JsonRpc.data := VUndefined |} VNull).

(** The answer of the [catch] clause. *)
Definition service_error : MiddlewareResult :=
  Respond 500
    (JsonRpc.ErrorResponse
       {| JsonRpc.code := JsonRpc.INTERNAL_ERROR;
          JsonRpc.message := "Authentication service error";
          JsonRpc.data := VUndefined |} VNull).

Section Manager.

(** The manager the middleware is created over: its state, and its method
    [validateApiKey], which returns a result or throws and leaves the
    manager in a state. *)
Context {Manager : Type}.
Variable validateApiKey :
  string -> Manager -> completion ApiKeys.ValidationResult * Manager.

(** The middleware [createAuthMiddleware(manager)] returns, with the manager
    as the call leaves it: 401 without a key or with a key that is not
    valid, [next()] with a valid key, and 500 from the [catch] clause when
    the validation throws. *)
Definition createAuthMiddleware (development : bool) (req : HttpRequest)
    (manager : Manager) : MiddlewareResult * Manager :=
  let apiKey := or_header (header req "X-API-Key") (header req "X-MCP-Key") in
  if no_key apiKey then (unauthorized "Authentication required", manager)
  else
    let key := default "" apiKey in
    let (validation, manager') := validateApiKey key manager in
    match validation with
    | Throw error => (service_error, manager')
    | Return ApiKeys.Invalid => (unauthorized "Invalid API key", manager')
    | Return (ApiKeys.Valid clientId authorizedSites permissions scopes) =>
        (Next {| JsonRpc.clientId := clientId;
                 JsonRpc.authorizedSites := authorizedSites;
                 JsonRpc.permissions := permissions;
                 JsonRpc.scopes := scopes |}
              (if development then Some clientId else None),
         manager')
    end.

End Manager.

(** The middleware over an [ApiKeyManager] whose key set is a list of key
    records: its [validateApiKey] returns. *)
Definition authMiddleware (development : bool) (w : ApiKeys.World)
    (req : HttpRequest) (manager : ApiKeys.ApiKeyManager)
  : MiddlewareResult * ApiKeys.ApiKeyManager :=
  createAuthMiddleware
    (fun key m =>
       (Return (fst (ApiKeys.validateApiKey w key m)),
        snd (ApiKeys.validateApiKey w key m)))
    development req manager.

End Middleware.

Module Resources.

(** *** src/resources/types.ts, [ResourceUri] *)

Definition SCHEME : string := "wordpress".

Record ParsedUri := {
  site : string;
  type : string;
  id : string
}.

(** [ResourceUri.create] *)
Definition create (site type id : string) : string :=
  SCHEME +:+ "://" +:+ site +:+ "/" +:+ type +:+ "/" +:+ id.

(** [s] without the prefix [p], when it starts with [p] *)
Fixpoint strip_prefix (p s : string) : option string :=
  match p with
  | EmptyString => Some s
  | String a p' =>
      match s with
      | String b s' => if Ascii.eqb a b then strip_prefix p' s' else None
      | EmptyString => None
      end
  end.

(** The maximal runs of [s] between the occurrences of [c] *)
Fixpoint split_on (c : ascii) (s : string) : list string :=
  match s with
  | EmptyString => [EmptyString]
  | String x rest =>
      if Ascii.eqb x c then EmptyString :: split_on c rest
      else match split_on c rest with
           | run :: runs => String x run :: runs
           | [] => [String x EmptyString]
           end
  end.

(** [ResourceUri.parse]: the pattern
    [^wordpress://([^/]+)/([^/]+)/([^/]+)$] matches a text that is the
    scheme, [://] and three runs without a slash, none of them empty, with
    one slash between two runs. [None] is [null]. *)
Definition parse (uri : string) : option ParsedUri :=
  match strip_prefix (SCHEME +:+ "://") uri with
  | None => None
  | Some rest =>
      match split_on "/" rest with
      | [s; t; i] =>
          if String.eqb s "" || String.eqb t "" || String.eqb i ""
          then None
          else Some {| site := s; type := t; id := i |}
      | _ => None
      end
  end.

End Resources.

(** ** The vocabulary of the properties, and the inputs of the examples *)

Module Examples.

Import JsonRpc.

(** A request carries an id when its [id] member is present. *)
Definition carries_id (request : value) : bool :=
  negb (is_undefined (get "id" request)).

(** A notification: a request that passes [validateRequest] and has no
    [id]. *)
Definition is_notification (request : value) : bool :=
  negb (isArray request)
  && valid (validateRequest request)
  && is_undefined (get "id" request).

Definition context0 : RequestContext :=
  {| correlationId := "req-1"; path := []; authContext := None |}.

(** A schema that accepts objects only, and one handler that answers [{}],
    one that throws. *)
Definition object_schema (params : value) : completion value :=
  match params with
  | VObj _ => Return params
  | _ => Throw (ZodError "Expected object" (VObj [("_errors", VArr [])]))
  end.

Definition ping_handler (params : value) (context : RequestContext)
  : completion value := Return (VObj []).

Definition failing_handler (params : value) (context : RequestContext)
  : completion value := Throw (OtherError "Error" "Method failed").

Definition registry : gmap string MethodHandler :=
  registerMethod "fail" failing_handler object_schema None
    (registerMethod "ping" ping_handler object_schema (Some "Ping") ∅).

Definition request (method : string) (params : value) (id : value) : value :=
  VObj [("jsonrpc", VStr "2.0"); ("method", VStr method);
        ("params", params); ("id", id)].

Definition notification (method : string) (params : value) : value :=
  VObj [("jsonrpc", VStr "2.0"); ("method", VStr method);
        ("params", params)].

End Examples.

Module KeyExamples.

Import ApiKeys.

(** The validity the documentation words: some record of the set has the
    key, is active, and has [expires] null or strictly in the future. *)
Definition documented_valid (w : World) (ks : list ApiKey) (apiKey : string)
  : bool :=
  existsb (fun k =>
             String.eqb (key k) apiKey && active k
             && match expires k with
                | None => true
                | Some (IsoDate t) => (now w <? t)%Z
                | Some _ => false
                end) ks.

(** The key records of the properties: [expires] null or a date. *)
Definition well_dated (k : ApiKey) : Prop :=
  expires k = None \/ exists t, expires k = Some (IsoDate t).

Definition record (key : string) (active : bool)
    (expires : option DateString) : ApiKey :=
  {| key := key; name := "test key"; clientId := "client-" +:+ key;
     permissions := ["read"; "write"]; authorizedSites := ["*"];
     active := active; created := IsoDate 0; expires := expires |}.

(** A world at time 1000000 with no file and no variable set. *)
Definition world0 : World :=
  {| now := 1000000; readFile := fun _ => None;
     API_KEYS := None; API_KEY := None; API_CLIENT_ID := None;
     API_PERMISSIONS := None; API_AUTHORIZED_SITES := None |}.

(** A manager over a file, loaded at time 1000000. *)
Definition loaded (ks : list ApiKey) : ApiKeyManager :=
  {| source := "file"; path := "keys.json"; keys := ks;
     loading := false; lastLoaded := 1000000 |}.

Definition keys_boundary : list ApiKey :=
  [record "k1" true (Some (IsoDate 1000000))].
Definition keys_duplicate : list ApiKey :=
  [record "k2" false None; record "k2" true None].
Definition keys_undated : list ApiKey :=
  [record "k3" true (Some NotADate)].
Definition keys_mixed : list ApiKey :=
  [record "a" true None; record "b" false None;
   record "c" true (Some (IsoDate 999999));
   record "d" true (Some (IsoDate 2000000))].

(** A world, five minutes and a second later, whose key file is gone. *)
Definition world_later : World :=
  {| now := 1301001; readFile := fun _ => None;
     API_KEYS := None; API_KEY := None; API_CLIENT_ID := None;
     API_PERMISSIONS := None; API_AUTHORIZED_SITES := None |}.

End KeyExamples.

Module SiteExamples.

Import Sites.

Definition blog_config : fields :=
  [("baseUrl", VStr "https://blog.example.com/"); ("timeout", VNum 5000)].

Definition blog_credentials : Credentials :=
  {| username := "editor"; applicationPassword := "abcd efgh ijkl" |}.

Definition blog_client : WordPressClient :=
  {| config := with_field "credentials" (credentials_value blog_credentials)
                 blog_config;
     baseUrl := "https://blog.example.com" |}.

(** A secrets manager for the examples: credentials held in a finite map,
    and a switch that makes every store fail. It implements the interface
    the site manager is given; it stands for no class of the server. *)
Record Vault := {
  held : gmap string Credentials;
  sealed : bool
}.

Definition vaultManager : SecretsManager Vault :=
  {| getCredentials := fun siteId v =>
       match held v !! siteId with
       | Some c => Return c
       | None => Throw (OtherError "Error" ("No credentials: " +:+ siteId))
       end;
     storeCredentials := fun siteId credentials v =>
       if sealed v
       then Throw (OtherError "Error" "The vault is sealed")
       else Return {| held := <[siteId := credentials]> (held v);
                      sealed := false |} |}.

(** A manager with no site, an empty vault and an empty disk, both
    writable. *)
Definition system0 : System Vault :=
  Build_System
    {| configPath := "sites.json"; sites := ∅; clients := ∅ |}
    {| held := ∅; sealed := false |}
    {| files := ∅; writable := fun _ => true |}.

Definition unreachable (client : WordPressClient) : bool := false.
Definition reachable (client : WordPressClient) : bool := true.

(** The site is added, probed without success, then with success. *)
Definition history0 : list call :=
  [AddSite "blog" blog_config blog_credentials;
   GetClientCall "blog" unreachable;
   GetClientCall "blog" reachable].


Definition system1 : System Vault :=
  snd (addSite vaultManager "blog" blog_config blog_credentials
         system0).

End SiteExamples.

Module MoreKeyExamples.

Import ApiKeys KeyExamples.

(** A world whose environment has one key and no JSON variable. *)
Definition world_single_key : World :=
  {| now := 1000000; readFile := fun _ => None;
     API_KEYS := Some Malformed; API_KEY := Some "s3cr3t";
     API_CLIENT_ID := None; API_PERMISSIONS := Some "read";
     API_AUTHORIZED_SITES := Some "blog,shop" |}.

(** A world whose key file holds the one key ["d"]. *)
Definition world_new_file : World :=
  {| now := 1301001;
     readFile := fun _ =>
       Some (Storage {| storage_keys := Some [record "d" true None] |});
     API_KEYS := None; API_KEY := None; API_CLIENT_ID := None;
     API_PERMISSIONS := None; API_AUTHORIZED_SITES := None |}.

(** A manager over the environment, loaded at time 1000000. *)
Definition loaded_from_env (ks : list ApiKey) : ApiKeyManager :=
  {| source := "env"; path := ""; keys := ks;
     loading := false; lastLoaded := 1000000 |}.

(** Requests with a key in one of the two headers. *)
Definition request_with (name value : string) : Middleware.HttpRequest :=
  {| Middleware.header := fun h =>
       if String.eqb h name then Some value else None;
     Middleware.ip := "127.0.0.1" |}.


End MoreKeyExamples.

Module MoreSiteExamples.

Import Sites SiteExamples.

(** The system of the added site, with the client of the site cached. *)
Definition system2 : System Vault :=
  step vaultManager (GetClientCall "blog" reachable) system1.

(** A system whose disk refuses every write. *)
Definition system_readonly : System Vault :=
  Build_System
    {| configPath := "sites.json"; sites := ∅; clients := ∅ |}
    {| held := ∅; sealed := false |}
    {| files := ∅; writable := fun _ => false |}.

(** A system whose vault refuses every store. *)
Definition system_sealed : System Vault :=
  Build_System
    {| configPath := "sites.json"; sites := ∅; clients := ∅ |}
    {| held := ∅; sealed := true |}
    {| files := ∅; writable := fun _ => true |}.

Definition shop_config : fields :=
  [("baseUrl", VStr "https://shop.example.com"); ("cacheEnabled", VBool true)].

Definition shop_credentials : Credentials :=
  {| username := "owner"; applicationPassword := "mnop qrst uvwx" |}.

End MoreSiteExamples.

Module ResourceExamples.

(** Whether the character occurs in the text. *)
Fixpoint contains_char (c : ascii) (s : string) : bool :=
  match s with
  | EmptyString => false
  | String x rest => Ascii.eqb x c || contains_char c rest
  end.

(** How often the character occurs in the text. *)
Fixpoint occurrences (c : ascii) (s : string) : nat :=
  match s with
  | EmptyString => 0
  | String x rest =>
      (if Ascii.eqb x c then 1 else 0) + occurrences c rest
  end.

(** A component a resource URI can carry: not empty, and without slash. *)
Definition component (s : string) : bool :=
  negb (String.eqb s "") && negb (contains_char "/" s).

End ResourceExamples.

(** ** Properties of the JSON-RPC handler *)

Module JsonRpcFacts.

Import JsonRpc Examples.

Section Handler.

Variable methods : gmap string MethodHandler.
Variable development : bool.

Lemma processRequest_array requests context :
  processRequest methods development (VArr requests) context =
  RArray (processBatchRequest (processRequest methods development)
            requests context).
Proof. reflexivity. Qed.

Lemma processRequest_single request context :
  isArray request = false ->
  processRequest methods development request context =
  processSingle methods development request context.
Proof. destruct request; simpl; intros H; try reflexivity; discriminate. Qed.

(** A request with an id, valid or not, is answered by one response that
    carries the id. *)
Lemma processSingle_with_id request context :
  is_undefined (get "id" request) = false ->
  is_null (get "id" request) || is_string (get "id" request)
    || is_number (get "id" request) = true ->
  exists r,
    processSingle methods development request context = RResponse r
    /\ response_id r = get "id" request.
Proof.
  intros Hid Hty. unfold processSingle.
  destruct (valid (validateRequest request)) eqn:Hv; simpl.
  - rewrite Hid.
    destruct (invokeMethod _ _ _ _) as [result | error].
    + eexists; split; [reflexivity | reflexivity].
    + eexists; split; [reflexivity |].
      destruct error; reflexivity.
  - eexists; split; [reflexivity |]. simpl.
    destruct request as [| | | | | | o]; try discriminate Hid.
    revert Hv. unfold validateRequest.
    change (negb (truthy (VObj o)) || negb (is_object (VObj o))) with false.
    cbv iota.
    repeat match goal with
           | |- context [if ?b then _ else _] => destruct b eqn:?
           end; simpl; try reflexivity; try discriminate.
    intros _.
    repeat match goal with
           | H : _ && _ = true |- _ => apply andb_prop in H; destruct H
           | H : negb _ = true |- _ => apply negb_true_iff in H
           end.
    apply orb_prop in Hty as [Hty | Hty];
      [apply orb_prop in Hty as [Hty | Hty] |]; congruence.
Qed.

Lemma notification_reply request context :
  is_notification request = true ->
  processRequest methods development request context =
  match invokeMethod methods (method_of request) (get "params" request)
          context with
  | Return _ => RNull
  | Throw error =>
      RResponse (createErrorResponse VNull INTERNAL_ERROR "Internal error"
                   (VObj [("message", VStr (error_message error))]))
  end.
Proof.
  unfold is_notification. intros H.
  apply andb_prop in H as [H Hid]. apply andb_prop in H as [Harr Hv].
  apply negb_true_iff in Harr.
  rewrite processRequest_single by exact Harr.
  unfold processSingle. rewrite Hv, Hid. reflexivity.
Qed.

Lemma answered_unless_notification request context :
  is_notification request = false ->
  is_RNull (processRequest methods development request context) = false.
Proof.
  unfold is_notification. intros H.
  destruct (isArray request) eqn:Harr.
  - destruct request; try discriminate. reflexivity.
  - rewrite processRequest_single by exact Harr.
    unfold processSingle. simpl in H.
    destruct (valid (validateRequest request)); simpl in *; [| reflexivity].
    rewrite H.
    destruct (invokeMethod _ _ _ _); reflexivity.
Qed.

(** The batch keeps, in order, the replies to the elements that are not
    notifications, when the notifications run without a throw. *)
Lemma batch_filter requests context :
  (forall r, In r requests -> is_notification r = true ->
     exists v, invokeMethod methods (method_of r) (get "params" r) context
               = Return v) ->
  List.filter (fun response => negb (is_RNull response))
    (List.map (fun r => processRequest methods development r context)
              requests) =
  List.map (fun r => processRequest methods development r context)
    (List.filter (fun r => negb (is_notification r)) requests).
Proof.
  induction requests as [| r rest IH]; intros Hquiet; [reflexivity |].
  simpl. destruct (is_notification r) eqn:Hn; simpl.
  - destruct (Hquiet r (or_introl eq_refl) Hn) as [v Hv].
    rewrite (notification_reply r context Hn), Hv. simpl.
    apply IH. intros r' Hin. apply Hquiet. right. exact Hin.
  - rewrite (answered_unless_notification r context Hn). simpl.
    f_equal. apply IH. intros r' Hin. apply Hquiet. right. exact Hin.
Qed.

End Handler.

(** C1, as the code has it: a notification (a valid envelope without [id])
    whose invocation throws is answered. [processRequest] awaits
    [invokeMethod] in the notification branch outside the inner [try], so
    the throw reaches the outer [catch], which returns an INTERNAL_ERROR
    (-32603) response with [id] null instead of [null]: for an unknown
    method, for params the schema rejects, and for a handler that throws. *)
Theorem notification_failure_is_answered :
  processRequest registry false (notification "nope" (VObj [])) context0
  = RResponse (createErrorResponse VNull (-32603) "Internal error"
                 (VObj [("message", VStr "Method not found: nope")]))
  /\ processRequest registry false (notification "ping" (VArr [])) context0
     = RResponse (createErrorResponse VNull (-32603) "Internal error"
                    (VObj [("message",
                            VStr "Invalid params: Expected object")]))
  /\ processRequest registry false (notification "fail" (VObj [])) context0
     = RResponse (createErrorResponse VNull (-32603) "Internal error"
                    (VObj [("message", VStr "Method failed")])).
Proof. repeat split; vm_compute; reflexivity. Qed.

(** C2, as the code has it: for the empty batch [[]], [processRequest]
    returns an array, whose one element is the INVALID_REQUEST (-32600)
    error response with [id] null; the response is wrapped. *)
Theorem empty_batch_reply_is_an_array methods development context :
  processRequest methods development (VArr []) context
  = RArray [RResponse (ErrorResponse
                         {| code := -32600;
                            message := "Invalid Request: Empty batch";
                            data := VUndefined |} VNull)].
Proof. reflexivity. Qed.

(** C3, as the code has it: a second [registerMethod] with a name that is
    registered returns normally and replaces the first registration; the
    registry then is the one the second call alone would have made. *)
Theorem second_registration_overwrites
    name handler1 schema1 description1 handler2 schema2 description2
    (methods : gmap string MethodHandler) :
  let twice :=
    registerMethod name handler2 schema2 description2
      (registerMethod name handler1 schema1 description1 methods) in
  twice !! name = Some {| JsonRpc.name := name; description := description2;
                          schema := schema2; handler := handler2 |}
  /\ twice = registerMethod name handler2 schema2 description2 methods.
Proof.
  unfold registerMethod. split.
  - apply lookup_insert_eq.
  - apply insert_insert_eq.
Qed.

(** C4, as stated, fails: in the batch of the number [5] and of an
    envelope of version 1.0 without [id] no element carries an id, and the
    reply has two entries, the INVALID_REQUEST responses to the two
    elements. *)
Lemma batch_length_counterexample :
  ~ (forall methods development context requests,
       requests <> [] ->
       exists rs,
         processRequest methods development (VArr requests) context
         = RArray rs
         /\ length rs = length (List.filter carries_id requests)).
Proof.
  intros H.
  destruct (H ∅ false context0
              [VNum 5;
               VObj [("jsonrpc", VStr "1.0"); ("method", VStr "ping")]])
    as [rs [Hrs Hlen]]; [discriminate |].
  vm_compute in Hrs. injection Hrs as <-. discriminate Hlen.
Qed.

(** C4, amended: for every non-empty batch whose notifications are invoked
    without a throw, the reply is the array of the replies to the elements
    that are not notifications (the requests with an id, and the elements
    that fail validation or are arrays), in the order of the input, none of
    them null; its length is the number of these elements, and the reply to
    an element with a string, number or null id is a response that carries
    this id. *)
Theorem batch_replies_in_order methods development context requests :
  requests <> [] ->
  (forall r, In r requests -> is_notification r = true ->
     exists v, invokeMethod methods (method_of r) (get "params" r)
                 (createChild context None) = Return v) ->
  let answered := List.filter (fun r => negb (is_notification r)) requests in
  let child := createChild context None in
  exists rs,
    processRequest methods development (VArr requests) context = RArray rs
    /\ rs = List.map (fun r => processRequest methods development r child)
                     answered
    /\ length rs = length answered
    /\ Forall (fun reply => is_RNull reply = false) rs
    /\ Forall2 (fun r reply =>
                  is_null (get "id" r) || is_string (get "id" r)
                    || is_number (get "id" r) = true ->
                  exists response,
                    reply = RResponse response
                    /\ response_id response = get "id" r)
               answered rs.
Proof.
  intros Hne Hquiet answered child.
  exists (List.map (fun r => processRequest methods development r child)
                   answered).
  split; [| split; [reflexivity | split; [| split]]].
  - rewrite processRequest_array. unfold processBatchRequest.
    destruct requests as [| r0 rest]; [contradiction |].
    f_equal. apply batch_filter. exact Hquiet.
  - apply length_map.
  - apply List.Forall_forall. intros reply Hin.
    apply in_map_iff in Hin as [r [<- Hr]].
    apply filter_In in Hr as [_ Hr]. apply negb_true_iff in Hr.
    apply answered_unless_notification. exact Hr.
  - clear. induction answered as [| r rest IH]; simpl; constructor; auto.
    intros Hty.
    assert (Hid : is_undefined (get "id" r) = false)
      by (destruct (get "id" r); simpl in *; try reflexivity; discriminate).
    assert (Harr : isArray r = false)
      by (destruct r; simpl in *; try reflexivity; discriminate).
    rewrite processRequest_single by exact Harr.
    apply processSingle_with_id; assumption.
Qed.

(** C4, at a batch of a notification, two calls and a number. *)
Lemma batch_replies_in_order_witness :
  exists rs,
    processRequest registry false
      (VArr [notification "ping" (VObj []);
             request "ping" (VObj []) (VNum 1);
             VNum 5;
             request "fail" (VObj []) (VStr "b")]) context0 = RArray rs
    /\ length rs = 3%nat.
Proof.
  destruct (batch_replies_in_order registry false context0
              [notification "ping" (VObj []);
               request "ping" (VObj []) (VNum 1);
               VNum 5;
               request "fail" (VObj []) (VStr "b")])
    as [rs [Hrs [_ [Hlen _]]]].
  - discriminate.
  - intros r [<- | [<- | [<- | [<- | []]]]] Hn;
      try discriminate Hn.
    exists (VObj []). vm_compute. reflexivity.
  - exists rs. split; [exact Hrs | exact Hlen].
Defined.

(** C8: for every single envelope whose [id] is present and is a string, a
    number or null, [processRequest] returns one response, and its [id] is
    the [id] of the request, whether the response is a result or an error:
    the INVALID_REQUEST (-32600) response to an envelope that fails
    validation (a wrong version, say), the result of the handler, or the
    error made from what the invocation throws (method not found, invalid
    params, handler error). *)
Theorem response_carries_request_id methods development request context :
  get "id" request = VNull
  \/ (exists s, get "id" request = VStr s)
  \/ (exists n, get "id" request = VNum n) ->
  exists response,
    processRequest methods development request context = RResponse response
    /\ response_id response = get "id" request
    /\ response =
       if valid (validateRequest request) then
         match invokeMethod methods (method_of request)
                 (get "params" request) context with
         | Return result => SuccessResponse result (get "id" request)
         | Throw error =>
             handleMethodError development (get "id" request) error
         end
       else
         ErrorResponse {| code := -32600; message := "Invalid Request";
                          data := validation_error (validateRequest request) |}
                       (get "id" request).
Proof.
  intros Hid.
  assert (Harr : isArray request = false).
  { destruct request; try reflexivity.
    simpl in Hid. destruct Hid as [H | [[s H] | [n H]]]; discriminate. }
  assert (Hdef : is_undefined (get "id" request) = false)
    by (destruct Hid as [H | [[s H] | [n H]]]; rewrite H; reflexivity).
  assert (Hty : is_null (get "id" request) || is_string (get "id" request)
                || is_number (get "id" request) = true)
    by (destruct Hid as [H | [[s H] | [n H]]]; rewrite H; reflexivity).
  rewrite processRequest_single by exact Harr.
  destruct (processSingle_with_id methods development request context
              Hdef Hty) as [response [Hreply Hrid]].
  exists response. split; [exact Hreply | split; [exact Hrid |]].
  revert Hreply Hrid. unfold processSingle.
  destruct (valid (validateRequest request)); simpl.
  - rewrite Hdef.
    destruct (invokeMethod _ _ _ _); intros [= <-]; reflexivity.
  - intros [= <-]. simpl. intros ->. reflexivity.
Qed.

(** C8, at the request of the wrong version: [{jsonrpc: '1.0', method:
    'ping', id: 2}]. *)
Lemma response_carries_request_id_witness :
  exists response,
    processRequest registry false
      (VObj [("jsonrpc", VStr "1.0"); ("method", VStr "ping");
             ("id", VNum 2)]) context0 = RResponse response
    /\ response_id response = VNum 2.
Proof.
  destruct (response_carries_request_id registry false
              (VObj [("jsonrpc", VStr "1.0"); ("method", VStr "ping");
                     ("id", VNum 2)]) context0)
    as [response [Hreply [Hid _]]].
  - right. right. exists 2%Z. reflexivity.
  - exists response. split; [exact Hreply | exact Hid].
Defined.

(** The two scenarios of the documentation. *)
Example ping_scenario :
  processRequest registry false (request "ping" (VObj []) (VNum 1)) context0
  = RResponse (SuccessResponse (VObj []) (VNum 1)).
Proof. vm_compute. reflexivity. Qed.

Example wrong_version_scenario :
  exists data,
    processRequest registry false
      (VObj [("jsonrpc", VStr "1.0"); ("method", VStr "ping");
             ("id", VNum 2)]) context0
    = RResponse (ErrorResponse
                   {| code := -32600; message := "Invalid Request";
                      data := data |} (VNum 2)).
Proof. eexists. vm_compute. reflexivity. Qed.

End JsonRpcFacts.

(** ** Properties of the API key manager *)

Module ApiKeyFacts.

Import ApiKeys KeyExamples.

Lemma set_loading_idle (m : ApiKeyManager) :
  loading m = false -> set_loading false (set_loading true m) = m.
Proof. destruct m; simpl; intros ->; reflexivity. Qed.

(** A load from the file that is started only sets [loading]. *)
Lemma started_from_file w m :
  source m = "file" ->
  loadKeys_started w m = set_loading true m.
Proof.
  intros Hs. unfold loadKeys_started. rewrite Hs. simpl.
  destruct m as [s p ks [] t]; reflexivity.
Qed.

(** With a source other than the environment a validation leaves the key
    set as it finds it. *)
Lemma reload_keeps_keys w m :
  source m <> "env" -> keys (reloadIfNeeded w m) = keys m.
Proof.
  intros Hs. unfold reloadIfNeeded, loadKeys_started.
  destruct (now w - lastLoaded m >? RELOAD_INTERVAL)%Z; [| reflexivity].
  destruct (loading m); [reflexivity |].
  destruct (String.eqb (source m) "file") eqn:Hf; [reflexivity |].
  unfold loadKeys_guarded, loadKeys_try. simpl. rewrite Hf.
  destruct (String.eqb (source m) "env") eqn:He.
  - apply String.eqb_eq in He. contradiction.
  - reflexivity.
Qed.

Example split_comma_permissions :
  split_comma "read,write" = ["read"; "write"]
  /\ split_comma "*" = ["*"] /\ split_comma "a,,b" = ["a"; ""; "b"].
Proof. repeat split; reflexivity. Qed.

Lemma failed_read_throws w m :
  readFile w (path m) = None \/ readFile w (path m) = Some Malformed ->
  exists error, loadKeysFromFile w m = Throw error.
Proof.
  unfold loadKeysFromFile. intros [-> | ->]; eexists; reflexivity.
Qed.

Lemma failed_load_guarded w m :
  source m = "file" ->
  readFile w (path m) = None \/ readFile w (path m) = Some Malformed ->
  loadKeys_guarded w m = Return (set_loading false m).
Proof.
  intros Hs Hfail. unfold loadKeys_guarded, loadKeys_try.
  rewrite Hs. simpl.
  destruct (failed_read_throws w m Hfail) as [error ->]. reflexivity.
Qed.

(** C5, as stated, fails three ways: a key whose [expires] is the current
    instant is accepted though it is not strictly in the future; of two
    records with one key the first decides, so an active record behind an
    inactive one is not found; an [expires] text that is no date never
    expires. *)
Lemma validate_iff_counterexample :
  (valid (fst (validateApiKey world0 "k1" (loaded keys_boundary))) = true
   /\ documented_valid world0 keys_boundary "k1" = false)
  /\ (valid (fst (validateApiKey world0 "k2" (loaded keys_duplicate))) = false
      /\ documented_valid world0 keys_duplicate "k2" = true)
  /\ (valid (fst (validateApiKey world0 "k3" (loaded keys_undated))) = true
      /\ documented_valid world0 keys_undated "k3" = false).
Proof. repeat split; vm_compute; reflexivity. Qed.

(** C5, amended: over a key set whose [expires] fields are null or dates,
    [validateApiKey(k)] returns a valid result iff the first record of the
    loaded key set whose key is [k] is active and has [expires] null or not
    earlier than the current time, and the result then carries the client,
    sites and permissions of that record; in every other case (no record
    with the key, or that first record inactive or expired) it returns
    [{valid: false}]. The loaded key set is the one the call leaves, which
    for a source other than the environment is the one it finds. *)
Theorem validate_first_match w apiKey m :
  let result := fst (validateApiKey w apiKey m) in
  let loaded := keys (snd (validateApiKey w apiKey m)) in
  Forall well_dated loaded ->
  (valid result = true <->
   exists k,
     List.find (fun k => String.eqb (key k) apiKey) loaded = Some k
     /\ active k = true
     /\ (expires k = None
         \/ exists t, expires k = Some (IsoDate t) /\ (now w <= t)%Z))
  /\ (forall k,
        List.find (fun k => String.eqb (key k) apiKey) loaded = Some k ->
        valid result = true ->
        result = Valid (clientId k) (authorizedSites k) (permissions k) [])
  /\ (valid result = false -> result = Invalid)
  /\ (source m <> "env" -> loaded = keys m).
Proof.
  intros result loaded Hdated. subst result loaded.
  unfold validateApiKey. simpl.
  set (ks := keys (reloadIfNeeded w m)) in *.
  destruct (List.find (fun k => String.eqb (key k) apiKey) ks)
    as [k |] eqn:Hfind.
  - assert (Hk : well_dated k).
    { apply find_some in Hfind as [Hin _].
      rewrite List.Forall_forall in Hdated. apply Hdated. exact Hin. }
    destruct (active k) eqn:Hact; simpl.
    + unfold expired.
      destruct Hk as [Hnone | [t Ht]].
      * rewrite Hnone. simpl. repeat split.
        -- intros _. exists k. auto.
        -- intros k' [= <-] _. reflexivity.
        -- discriminate.
        -- intros Hs. apply reload_keeps_keys. exact Hs.
      * rewrite Ht. destruct (t <? now w)%Z eqn:Hlt; simpl; repeat split.
        -- discriminate.
        -- intros [k' [[= <-] [_ [Hn | [t' [Ht' Hle]]]]]].
           ++ congruence.
           ++ rewrite Ht in Ht'. injection Ht' as <-.
              apply Z.ltb_lt in Hlt. lia.
        -- intros k' _ Hv. discriminate Hv.
        -- intros Hs. apply reload_keeps_keys. exact Hs.
        -- intros _. exists k. split; [reflexivity | split; [exact Hact |]].
           right. exists t. split; [exact Ht |].
           apply Z.ltb_ge in Hlt. exact Hlt.
        -- intros k' [= <-] _. reflexivity.
        -- discriminate.
        -- intros Hs. apply reload_keeps_keys. exact Hs.
    + repeat split.
      * discriminate.
      * intros [k' [[= <-] [Ha _]]]. congruence.
      * intros k' _ Hv. discriminate Hv.
      * intros Hs. apply reload_keeps_keys. exact Hs.
  - repeat split.
    + discriminate.
    + intros [k' [Hk' _]]. discriminate Hk'.
    + intros k' Hk'. discriminate Hk'.
    + intros Hs. apply reload_keeps_keys. exact Hs.
Qed.

Lemma keys_mixed_well_dated : Forall well_dated keys_mixed.
Proof.
  unfold keys_mixed.
  repeat (apply List.Forall_cons;
          [first [left; reflexivity | right; eexists; reflexivity] |]).
  apply List.Forall_nil.
Defined.

(** C5, at a set of four keys: the undated key ["a"] is valid. *)
Lemma validate_first_match_witness :
  valid (fst (validateApiKey world0 "a" (loaded keys_mixed))) = true.
Proof.
  apply (validate_first_match world0 "a" (loaded keys_mixed)).
  - exact keys_mixed_well_dated.
  - exists (record "a" true None).
    split; [reflexivity | split; [reflexivity | left; reflexivity]].
Defined.

(** C9: when a reload from the file fails (the read rejects, or the text
    does not parse), the loader throws, [loadKeys] catches the error and
    returns normally, and the manager is as it was before the reload, key
    set included: awaited ([loadKeys]) as well as started by a validation
    and settled later. The validation that started the reload, and every
    validation after the failure, returns what it returns without the
    reload. *)
Theorem failed_reload_keeps_keys w m :
  source m = "file" ->
  loading m = false ->
  readFile w (path m) = None \/ readFile w (path m) = Some Malformed ->
  (exists error, loadKeysFromFile w (set_loading true m) = Throw error)
  /\ loadKeys w m = Return m
  /\ (forall w0 apiKey,
        loadKeys_settled w (snd (validateApiKey w0 apiKey m)) = m
        /\ keys (snd (validateApiKey w0 apiKey m)) = keys m)
  /\ (forall w0 w1 apiKey apiKey',
        validateApiKey w1 apiKey'
          (loadKeys_settled w (snd (validateApiKey w0 apiKey m)))
        = validateApiKey w1 apiKey' m).
Proof.
  intros Hs Hidle Hfail.
  assert (Hsettle : forall w0 apiKey,
             loadKeys_settled w (snd (validateApiKey w0 apiKey m)) = m).
  { intros w0 apiKey. unfold validateApiKey. simpl.
    unfold reloadIfNeeded, loadKeys_settled.
    destruct (now w0 - lastLoaded m >? RELOAD_INTERVAL)%Z.
    - rewrite started_from_file by exact Hs.
      rewrite failed_load_guarded by assumption.
      apply set_loading_idle. exact Hidle.
    - rewrite failed_load_guarded by assumption.
      destruct m; simpl in *; subst; reflexivity. }
  split; [| split; [| split]].
  - apply failed_read_throws. exact Hfail.
  - unfold loadKeys. rewrite Hidle.
    rewrite failed_load_guarded by assumption.
    f_equal. apply set_loading_idle. exact Hidle.
  - intros w0 apiKey. split; [apply Hsettle |].
    unfold validateApiKey. simpl. apply reload_keeps_keys.
    rewrite Hs. discriminate.
  - intros w0 w1 apiKey apiKey'. rewrite Hsettle. reflexivity.
Qed.

(** C9, at a manager with four keys whose file is gone when the reload
    reads it. *)
Lemma failed_reload_keeps_keys_witness :
  loadKeys world_later (loaded keys_mixed) = Return (loaded keys_mixed).
Proof.
  apply (failed_reload_keeps_keys world_later (loaded keys_mixed)).
  - reflexivity.
  - reflexivity.
  - left. reflexivity.
Defined.

End ApiKeyFacts.

(** ** Properties of the site manager *)

Module SiteFacts.

Import Sites SiteExamples.



Lemma assoc_with_field k v (o : fields) : assoc k (with_field k v o) = v.
Proof.
  induction o as [| [k' v'] rest IH]; simpl.
  - rewrite String.eqb_refl. reflexivity.
  - destruct (String.eqb k' k) eqn:Hk; simpl.
    + rewrite String.eqb_refl. reflexivity.
    + rewrite String.eqb_sym, Hk. exact IH.
Qed.

(** Reading a property of an object whose names are distinct. *)
Lemma assoc_elem_of k v (o : fields) :
  NoDup o.*1 -> (k, v) ∈ o -> assoc k o = v.
Proof.
  induction o as [| [k' v'] rest IH]; intros Hnd Hin.
  - apply elem_of_nil in Hin. contradiction.
  - simpl in *. apply NoDup_cons in Hnd as [Hfresh Hnd].
    apply elem_of_cons in Hin as [Heq | Hin].
    + injection Heq as <- <-. rewrite String.eqb_refl. reflexivity.
    + destruct (String.eqb k k') eqn:Hk.
      * apply String.eqb_eq in Hk. subst k'.
        exfalso. apply Hfresh. apply list_elem_of_fmap.
        exists (k, v). split; [reflexivity | exact Hin].
      * apply IH; assumption.
Qed.

Lemma assoc_not_elem_of k (o : fields) :
  k ∉ o.*1 -> assoc k o = VUndefined.
Proof.
  induction o as [| [k' v'] rest IH]; intros Hnin; [reflexivity |].
  simpl in *. apply not_elem_of_cons in Hnin as [Hne Hnin].
  destruct (String.eqb k k') eqn:Hk.
  - apply String.eqb_eq in Hk. contradiction.
  - apply IH. exact Hnin.
Qed.

Lemma assoc_map_to_list k (m : gmap string value) :
  assoc k (map_to_list m) = default VUndefined (m !! k).
Proof.
  destruct (m !! k) as [v |] eqn:Hk; simpl.
  - apply assoc_elem_of.
    + apply NoDup_fst_map_to_list.
    + apply elem_of_map_to_list. exact Hk.
  - apply assoc_not_elem_of. intros Hin.
    apply list_elem_of_fmap in Hin as [[k' v] [Heq Hin]].
    simpl in Heq. subst k'.
    apply elem_of_map_to_list in Hin. congruence.
Qed.



(** The properties written for a list of properties none of which is
    undefined. *)
Lemma serialised_properties_defined (o : fields) :
  Forall (fun kv => is_undefined kv.2 = false) o ->
  serialised_properties o = (fun kv => (kv.1, serialised kv.2)) <$> o.
Proof.
  induction 1 as [| [k v] rest Hv _ IH]; [reflexivity |].
  simpl in *. rewrite Hv, IH. reflexivity.
Qed.


Lemma saveSiteConfigurations_writes fs m fs' :
  saveSiteConfigurations fs m = Return fs' ->
  files fs'
  = <[configPath m := Json (serialised (sitesDocument m))]> (files fs).
Proof.
  unfold saveSiteConfigurations, writeFile.
  destruct (writable fs (configPath m)); simpl; [| discriminate].
  intros [= <-]. reflexivity.
Qed.

Section Manager.

Context {secrets : Type}.
Variable secretsManager : SecretsManager secrets.

(** A step adds a client to the cache only in [getClient], after a probe
    of this client that succeeded. *)
Lemma step_cache (c : call) (s : System secrets) siteId client :
  clients (manager (step secretsManager c s)) !! siteId = Some client ->
  clients (manager s) !! siteId = Some client
  \/ exists checkConnection,
       c = GetClientCall siteId checkConnection
       /\ checkConnection client = true.
Proof.
  destruct c as [| site probe | site config credentials | site]; simpl.
  - unfold initialize, loadSiteConfigurations.
    destruct (files (disk s) !! configPath (manager s)) as [[| v] |];
      simpl; auto.
    destruct (is_null v || is_undefined v); simpl; auto.
  - unfold getClient.
    destruct (sites (manager s) !! site) as [config |]; simpl; auto.
    destruct (clients (manager s) !! site) as [cached |] eqn:Hc; simpl; auto.
    destruct (newWordPressClient config) as [fresh | error]; simpl; auto.
    destruct (probe fresh) eqn:Hp; simpl; auto.
    destruct (decide (site = siteId)) as [-> | Hne].
    + rewrite lookup_insert_eq. intros [= <-].
      right. exists probe. auto.
    + rewrite lookup_insert_ne by exact Hne. auto.
  - unfold addSite.
    destruct (storeCredentials secretsManager site credentials (vault s));
      simpl; auto.
    destruct (saveSiteConfigurations _ _); simpl; auto.
  - unfold removeSite. simpl.
    destruct (sites (manager s) !! site); simpl.
    + destruct (saveSiteConfigurations _ _); simpl;
        intros H; left;
        apply lookup_delete_Some in H as [_ H]; exact H.
    + intros H; left. apply lookup_delete_Some in H as [_ H]; exact H.
Qed.

Lemma run_snoc history c (s : System secrets) :
  run secretsManager (history ++ [c]) s
  = step secretsManager c (run secretsManager history s).
Proof. unfold run. rewrite fold_left_app. reflexivity. Qed.

Lemma run_cache history (s : System secrets) siteId client :
  clients (manager s) = ∅ ->
  clients (manager (run secretsManager history s)) !! siteId = Some client ->
  exists checkConnection,
    In (GetClientCall siteId checkConnection) history
    /\ checkConnection client = true.
Proof.
  intros Hempty. induction history as [| c history IH] using rev_ind.
  - simpl. rewrite Hempty, lookup_empty. discriminate.
  - rewrite run_snoc. intros Hc.
    apply step_cache in Hc as [Hc | [probe [-> Hp]]].
    + destruct (IH Hc) as [probe [Hin Hp]].
      exists probe. split; [| exact Hp].
      apply in_or_app. left. exact Hin.
    + exists probe. split; [| exact Hp].
      apply in_or_app. right. left. reflexivity.
Qed.

End Manager.

(** C6: along every history of calls from an empty cache, a client in the
    cache was put there by a [getClient] of its site whose connectivity
    check of this client succeeded. A [getClient] whose check fails throws
    and leaves the manager, cache included, as it was; the next
    [getClient] of the site constructs the client again, and returns and
    caches it when its check succeeds. *)
Theorem cache_holds_verified_clients {secrets : Type}
    (secretsManager : SecretsManager secrets)
    (history : list (call)) (s : System secrets) :
  clients (manager s) = ∅ ->
  (forall siteId client,
     clients (manager (run secretsManager history s)) !! siteId
     = Some client ->
     exists checkConnection,
       In (GetClientCall siteId checkConnection) history
       /\ checkConnection client = true)
  /\ (forall checkConnection siteId m config client,
        sites m !! siteId = Some config ->
        clients m !! siteId = None ->
        newWordPressClient config = Return client ->
        checkConnection client = false ->
        let failed := getClient checkConnection siteId m in
        (exists error, outcome failed = Throw error)
        /\ after failed = m
        /\ forall checkConnection',
             let again := getClient checkConnection' siteId (after failed) in
             constructed again = [client]
             /\ (checkConnection' client = true ->
                 outcome again = Return client
                 /\ clients (after again) !! siteId = Some client)).
Proof.
  intros Hempty. split.
  - intros siteId client. apply run_cache. exact Hempty.
  - intros probe siteId m config client Hsite Hmiss Hnew Hprobe.
    unfold getClient. rewrite Hsite, Hmiss, Hnew, Hprobe. simpl.
    split; [eexists; reflexivity | split; [reflexivity |]].
    intros probe'. rewrite Hsite, Hmiss, Hnew.
    destruct (probe' client) eqn:Hp'; simpl.
    + split; [reflexivity |]. intros _. split; [reflexivity |].
      apply lookup_insert_eq.
    + split; [reflexivity |]. discriminate.
Qed.

(** C6, at the history that adds a site, probes it without success and
    then with success: the cached client of the site passed a check. *)
Lemma cache_holds_verified_clients_witness :
  clients (manager system0) = ∅
  /\ exists checkConnection,
       In (GetClientCall "blog" checkConnection) history0
       /\ checkConnection blog_client = true.
Proof.
  split; [reflexivity |].
  apply (proj1 (cache_holds_verified_clients vaultManager history0
                  system0 eq_refl) "blog" blog_client).
  vm_compute. reflexivity.
Defined.

(** The cache of that history is not empty: it holds the client of the
    site. *)
Example history0_cache :
  clients (manager (run vaultManager history0 system0)) !! "blog"
  = Some blog_client.
Proof. vm_compute. reflexivity. Qed.

(** C7: [getClient(siteId)] for a site that is not configured throws the
    error of code -32001 and constructs no client; for a configured site
    without a cached client, whose new client fails its connectivity check,
    it throws the error of code -32002. *)
Theorem getClient_error_codes checkConnection siteId m :
  (sites m !! siteId = None ->
   getClient checkConnection siteId m
   = {| outcome := Throw (JsonRpcError
                            ("Unknown WordPress site: " +:+ siteId)
                            (-32001) (VObj [("siteId", VStr siteId)]));
        after := m; constructed := [] |})
  /\ (forall config client,
        sites m !! siteId = Some config ->
        clients m !! siteId = None ->
        newWordPressClient config = Return client ->
        checkConnection client = false ->
        getClient checkConnection siteId m
        = {| outcome := Throw (JsonRpcError
                                 ("Failed to connect to WordPress site: "
                                    +:+ siteId)
                                 (-32002) (VObj [("siteId", VStr siteId)]));
             after := m; constructed := [client] |}).
Proof.
  unfold getClient. split.
  - intros ->. reflexivity.
  - intros config client -> -> -> ->. reflexivity.
Qed.

(** C7, at a site that is not configured and at a site that cannot be
    reached. *)
Lemma getClient_error_codes_witness :
  outcome (getClient reachable "shop" (manager system1))
  = Throw (JsonRpcError "Unknown WordPress site: shop" (-32001)
             (VObj [("siteId", VStr "shop")]))
  /\ constructed (getClient reachable "shop" (manager system1)) = []
  /\ outcome (getClient unreachable "blog" (manager system1))
     = Throw (JsonRpcError "Failed to connect to WordPress site: blog"
                (-32002) (VObj [("siteId", VStr "blog")])).
Proof.
  split; [| split].
  - rewrite (proj1 (getClient_error_codes reachable "shop" (manager system1)))
      by (vm_compute; reflexivity).
    reflexivity.
  - rewrite (proj1 (getClient_error_codes reachable "shop" (manager system1)))
      by (vm_compute; reflexivity).
    reflexivity.
  - rewrite (proj2 (getClient_error_codes unreachable "blog"
                      (manager system1))
               (with_field "credentials" (credentials_value blog_credentials)
                  blog_config)
               blog_client)
      by (vm_compute; reflexivity).
    reflexivity.
Defined.




End SiteFacts.

(** ** Further properties of the JSON-RPC handler *)

Module JsonRpcMore.

Import JsonRpc Examples.

Lemma valid_not_array request :
  valid (validateRequest request) = true -> isArray request = false.
Proof. destruct request; try reflexivity. discriminate. Qed.

(** X1: [validateRequest] accepts exactly the objects whose [jsonrpc] is
    the string 2.0, whose [method] is a non-empty string, whose [params],
    if present, is an object or an array, and whose [id], if present, is a
    string, a number or null. *)
Theorem validateRequest_accepts request :
  valid (validateRequest request) = true <->
  exists o,
    request = VObj o
    /\ assoc "jsonrpc" o = VStr "2.0"
    /\ (exists m, assoc "method" o = VStr m /\ m <> "")
    /\ (assoc "params" o = VUndefined
        \/ (exists l, assoc "params" o = VArr l)
        \/ (exists f, assoc "params" o = VObj f))
    /\ (assoc "id" o = VUndefined \/ assoc "id" o = VNull
        \/ (exists s, assoc "id" o = VStr s)
        \/ (exists n, assoc "id" o = VNum n)).
Proof.
  split.
  - destruct request as [| | | | | | o];
      try (unfold validateRequest; simpl; rewrite ?orb_true_r; discriminate).
    unfold validateRequest, get.
    change (negb (truthy (VObj o)) || negb (is_object (VObj o))) with false.
    cbv iota.
    destruct (assoc "jsonrpc" o) as [| | | | v | |] eqn:Hv;
      simpl; try discriminate.
    destruct (String.eqb v "2.0") eqn:Hv'; simpl; [| discriminate].
    apply String.eqb_eq in Hv'. subst v.
    destruct (assoc "method" o) as [| | | | m | |] eqn:Hm;
      simpl; try discriminate.
    destruct (String.eqb m "") eqn:Hm'; simpl; [discriminate |].
    apply String.eqb_neq in Hm'.
    destruct (assoc "params" o) eqn:Hp; simpl; try discriminate;
      (destruct (assoc "id" o) eqn:Hi; simpl; try discriminate; intros _;
       exists o; repeat split; eauto 6).
  - intros [o [-> [Hv [[m [Hm Hne]] [Hp Hi]]]]].
    unfold validateRequest, get.
    change (negb (truthy (VObj o)) || negb (is_object (VObj o))) with false.
    cbv iota. rewrite Hv, Hm. simpl.
    apply String.eqb_neq in Hne. rewrite Hne. simpl.
    destruct Hp as [-> | [[l ->] | [f ->]]];
      destruct Hi as [-> | [-> | [[s ->] | [n ->]]]]; reflexivity.
Qed.

(** X2: an envelope that fails validation is answered with the
    INVALID_REQUEST (-32600) response alone: the reply is the same for
    every registry, mode and context, so no method is looked up and no
    handler runs. *)
Theorem invalid_envelope_is_not_dispatched
    methods methods' development development' request context context' :
  isArray request = false ->
  valid (validateRequest request) = false ->
  processRequest methods development request context
  = RResponse (ErrorResponse
                 {| code := -32600; message := "Invalid Request";
                    data := validation_error (validateRequest request) |}
                 (validation_id (validateRequest request)))
  /\ processRequest methods' development' request context'
     = processRequest methods development request context.
Proof.
  intros Harr Hv.
  rewrite !JsonRpcFacts.processRequest_single by exact Harr.
  unfold processSingle. rewrite Hv. simpl. split; reflexivity.
Qed.

Lemma invalid_envelope_is_not_dispatched_witness :
  processRequest ∅ true (VStr "ping") context0
  = processRequest registry false (VStr "ping") context0.
Proof.
  apply (invalid_envelope_is_not_dispatched registry ∅ false true
           (VStr "ping") context0 context0); reflexivity.
Defined.

Section Calls.

Variable methods : gmap string MethodHandler.
Variable development : bool.

(** The reply to a valid call with an id. *)
Lemma call_reply request context :
  valid (validateRequest request) = true ->
  is_undefined (get "id" request) = false ->
  processRequest methods development request context
  = match invokeMethod methods (method_of request) (get "params" request)
            context with
    | Return result => RResponse (SuccessResponse result (get "id" request))
    | Throw error =>
        RResponse (handleMethodError development (get "id" request) error)
    end.
Proof.
  intros Hv Hid.
  rewrite JsonRpcFacts.processRequest_single by (apply valid_not_array, Hv).
  unfold processSingle. rewrite Hv, Hid. reflexivity.
Qed.

End Calls.

(** X3: a valid call with an id to a name that is not registered is
    answered with METHOD_NOT_FOUND (-32601), the name in the message, and
    the id of the call. *)
Theorem unknown_method_reply methods development request context :
  valid (validateRequest request) = true ->
  is_undefined (get "id" request) = false ->
  methods !! method_of request = None ->
  processRequest methods development request context
  = RResponse (ErrorResponse
                 {| code := -32601;
                    message := "Method not found: " +:+ method_of request;
                    data := VUndefined |} (get "id" request)).
Proof.
  intros Hv Hid Hnone. rewrite call_reply by assumption.
  unfold invokeMethod. rewrite Hnone. reflexivity.
Qed.

Lemma unknown_method_reply_witness :
  processRequest registry false (request "wp.posts.list" (VObj []) (VNum 7))
    context0
  = RResponse (ErrorResponse
                 {| code := -32601;
                    message := "Method not found: wp.posts.list";
                    data := VUndefined |} (VNum 7)).
Proof.
  apply (unknown_method_reply registry false
           (request "wp.posts.list" (VObj []) (VNum 7)) context0);
    vm_compute; reflexivity.
Defined.

(** X4: a valid call with an id whose params the schema of the method
    rejects is answered with INVALID_PARAMS (-32602), the message and the
    formatted issues of the schema error and the id of the call, whatever
    the handler of the method is: the handler does not run. *)
Theorem rejected_params_reply
    methods development request context method msg formatted :
  valid (validateRequest request) = true ->
  is_undefined (get "id" request) = false ->
  methods !! method_of request = Some method ->
  schema method (get "params" request) = Throw (ZodError msg formatted) ->
  processRequest methods development request context
  = RResponse (ErrorResponse
                 {| code := -32602;
                    message := "Invalid params: " +:+ msg;
                    data := formatted |} (get "id" request)).
Proof.
  intros Hv Hid Hm Hs. rewrite call_reply by assumption.
  unfold invokeMethod. rewrite Hm. simpl. rewrite Hs. reflexivity.
Qed.

Lemma rejected_params_reply_witness :
  processRequest registry false (request "fail" (VArr []) (VStr "r1"))
    context0
  = RResponse (ErrorResponse
                 {| code := -32602;
                    message := "Invalid params: Expected object";
                    data := VObj [("_errors", VArr [])] |} (VStr "r1")).
Proof.
  apply (rejected_params_reply registry false
           (request "fail" (VArr []) (VStr "r1")) context0
           {| name := "fail"; description := None;
              schema := object_schema; handler := failing_handler |});
    vm_compute; reflexivity.
Defined.

(** X5: when the handler of a valid call with an id throws, a
    [JsonRpcError] is passed on with its code, message and data; any other
    error (not named ZodError) becomes INTERNAL_ERROR (-32603) 'Internal
    server error', and outside development the response has no data: the
    message of the error is not sent. *)
Theorem handler_error_reply
    methods development request context method params :
  valid (validateRequest request) = true ->
  is_undefined (get "id" request) = false ->
  methods !! method_of request = Some method ->
  schema method (get "params" request) = Return params ->
  (forall msg c d,
     handler method params context = Throw (JsonRpcError msg c d) ->
     processRequest methods development request context
     = RResponse (ErrorResponse {| code := c; message := msg; data := d |}
                                (get "id" request)))
  /\ (forall n msg,
        n <> "ZodError" ->
        handler method params context = Throw (OtherError n msg) ->
        processRequest methods development request context
        = RResponse (ErrorResponse
                       {| code := -32603; message := "Internal server error";
                          data := if development then VStr msg
                                  else VUndefined |} (get "id" request))).
Proof.
  intros Hv Hid Hm Hs. split.
  - intros msg c d Hh. rewrite call_reply by assumption.
    unfold invokeMethod. rewrite Hm. simpl. rewrite Hs. simpl. rewrite Hh.
    reflexivity.
  - intros n msg Hn Hh. rewrite call_reply by assumption.
    unfold invokeMethod. rewrite Hm. simpl. rewrite Hs. simpl. rewrite Hh.
    simpl. apply String.eqb_neq in Hn. rewrite Hn. reflexivity.
Qed.

Lemma handler_error_reply_witness :
  processRequest registry false (request "fail" (VObj []) (VNum 3)) context0
  = RResponse (ErrorResponse
                 {| code := -32603; message := "Internal server error";
                    data := VUndefined |} (VNum 3)).
Proof.
  apply (proj2 (handler_error_reply registry false
                  (request "fail" (VObj []) (VNum 3)) context0
                  {| name := "fail"; description := None;
                     schema := object_schema; handler := failing_handler |}
                  (VObj [])
                  ltac:(vm_compute; reflexivity) ltac:(vm_compute; reflexivity)
                  ltac:(vm_compute; reflexivity) ltac:(vm_compute; reflexivity))
           "Error" "Method failed").
  - discriminate.
  - reflexivity.
Defined.

(** X6: a schema error thrown by the handler itself is reported like a
    rejection of the params, as INVALID_PARAMS (-32602): the [catch] of
    [invokeMethod] covers the schema and the handler alike. *)
Theorem handler_schema_error_reply
    methods development request context method params msg formatted :
  valid (validateRequest request) = true ->
  is_undefined (get "id" request) = false ->
  methods !! method_of request = Some method ->
  schema method (get "params" request) = Return params ->
  handler method params context = Throw (ZodError msg formatted) ->
  processRequest methods development request context
  = RResponse (ErrorResponse
                 {| code := -32602;
                    message := "Invalid params: " +:+ msg;
                    data := formatted |} (get "id" request)).
Proof.
  intros Hv Hid Hm Hs Hh. rewrite call_reply by assumption.
  unfold invokeMethod. rewrite Hm. simpl. rewrite Hs. simpl. rewrite Hh.
  reflexivity.
Qed.

Lemma handler_schema_error_reply_witness :
  processRequest
    (registerMethod "strict"
       (fun params context =>
          Throw (ZodError "Required" (VObj [("_errors", VArr [])])))
       object_schema None registry)
    false (request "strict" (VObj []) (VNum 4)) context0
  = RResponse (ErrorResponse
                 {| code := -32602; message := "Invalid params: Required";
                    data := VObj [("_errors", VArr [])] |} (VNum 4)).
Proof.
  apply (handler_schema_error_reply _ false
           (request "strict" (VObj []) (VNum 4)) context0
           {| name := "strict"; description := None;
              schema := object_schema;
              handler := fun params context =>
                Throw (ZodError "Required" (VObj [("_errors", VArr [])])) |}
           (VObj []));
    vm_compute; reflexivity.
Defined.

(** X7: registering a method changes the reply to no single request that
    names another method. *)
Theorem registration_leaves_other_methods
    name handler schema description methods development request context :
  isArray request = false ->
  method_of request <> name ->
  processRequest (registerMethod name handler schema description methods)
    development request context
  = processRequest methods development request context.
Proof.
  intros Harr Hne.
  rewrite !JsonRpcFacts.processRequest_single by exact Harr.
  unfold processSingle, invokeMethod, registerMethod.
  rewrite lookup_insert_ne by (intros Heq; apply Hne; symmetry; exact Heq).
  reflexivity.
Qed.

Lemma registration_leaves_other_methods_witness :
  processRequest
    (registerMethod "echo" (fun params context => Return params)
       object_schema None registry)
    false (request "ping" (VObj []) (VNum 1)) context0
  = processRequest registry false (request "ping" (VObj []) (VNum 1))
      context0.
Proof.
  apply (registration_leaves_other_methods "echo"
           (fun params context => Return params) object_schema None
           registry false (request "ping" (VObj []) (VNum 1)) context0).
  - reflexivity.
  - vm_compute. discriminate.
Defined.

(** X8: once a method is registered, a valid call with an id to its name
    is answered with the result of its handler, which is given what the
    schema returned for the params (not the params as sent) and the context
    of the call; the response carries the id of the call. *)
Theorem registered_method_is_dispatched
    name handler schema description methods development request context
    params result :
  valid (validateRequest request) = true ->
  is_undefined (get "id" request) = false ->
  method_of request = name ->
  schema (get "params" request) = Return params ->
  handler params context = Return result ->
  processRequest (registerMethod name handler schema description methods)
    development request context
  = RResponse (SuccessResponse result (get "id" request)).
Proof.
  intros Hv Hid Hname Hs Hh. rewrite call_reply by assumption.
  unfold invokeMethod, registerMethod. rewrite Hname, lookup_insert_eq.
  simpl. rewrite Hs. simpl. rewrite Hh. reflexivity.
Qed.

Lemma registered_method_is_dispatched_witness :
  processRequest
    (registerMethod "count"
       (fun params context => Return (get "n" params))
       (fun params => Return (VObj [("n", VNum 1)])) None ∅)
    false (request "count" (VObj []) (VStr "c")) context0
  = RResponse (SuccessResponse (VNum 1) (VStr "c")).
Proof.
  apply (registered_method_is_dispatched "count"
           (fun params context => Return (get "n" params))
           (fun params => Return (VObj [("n", VNum 1)])) None ∅ false
           (request "count" (VObj []) (VStr "c")) context0
           (VObj [("n", VNum 1)]) (VNum 1));
    reflexivity.
Defined.

(** X9: a batch that holds only notifications, all invoked without a
    throw, is answered with the empty array (not with [null]). *)
Theorem batch_of_notifications_reply
    methods development context requests :
  requests <> [] ->
  (forall r, In r requests ->
     is_notification r = true
     /\ exists v, invokeMethod methods (method_of r) (get "params" r)
                    (createChild context None) = Return v) ->
  processRequest methods development (VArr requests) context = RArray [].
Proof.
  intros Hne Hall. rewrite JsonRpcFacts.processRequest_array.
  unfold processBatchRequest.
  destruct requests as [| r0 rest]; [contradiction |].
  f_equal. rewrite JsonRpcFacts.batch_filter
    by (intros r Hin _; apply (Hall r Hin)).
  clear Hne. set (l := r0 :: rest) in *. clearbody l.
  induction l as [| r l IH]; [reflexivity |].
  simpl. destruct (Hall r (or_introl eq_refl)) as [-> _]. simpl.
  apply IH. intros r' Hin. apply Hall. right. exact Hin.
Qed.

Lemma batch_of_notifications_reply_witness :
  processRequest registry false
    (VArr [notification "ping" (VObj []); notification "ping" (VObj [])])
    context0 = RArray [].
Proof.
  apply (batch_of_notifications_reply registry false context0
           [notification "ping" (VObj []); notification "ping" (VObj [])]).
  - discriminate.
  - intros r [<- | [<- | []]];
      (split; [reflexivity | exists (VObj []); vm_compute; reflexivity]).
Defined.

End JsonRpcMore.

(** ** Further properties of the API key manager and of its middleware *)

Module ApiKeyMore.

Import ApiKeys KeyExamples MoreKeyExamples.

Lemma find_key_none apiKey (ks : list ApiKey) :
  (forall k, In k ks -> key k <> apiKey) ->
  List.find (fun k => String.eqb (key k) apiKey) ks = None.
Proof.
  induction ks as [| k ks IH]; intros Hno; [reflexivity |].
  simpl. destruct (String.eqb (key k) apiKey) eqn:Hk.
  - apply String.eqb_eq in Hk. exfalso.
    apply (Hno k (or_introl eq_refl) Hk).
  - apply IH. intros k' Hin. apply Hno. right. exact Hin.
Qed.

(** X11: a validation less than five minutes after the last load, or
    while a load is in flight, starts no load: it leaves the manager as it
    finds it. *)
Theorem validation_without_reload w apiKey m :
  (now w - lastLoaded m <= RELOAD_INTERVAL)%Z \/ loading m = true ->
  snd (validateApiKey w apiKey m) = m.
Proof.
  intros H. unfold validateApiKey. simpl. unfold reloadIfNeeded.
  destruct (now w - lastLoaded m >? RELOAD_INTERVAL)%Z eqn:Hstale;
    [| reflexivity].
  destruct H as [Hfresh | Hload].
  - apply Z.gtb_lt in Hstale. lia.
  - unfold loadKeys_started. rewrite Hload. reflexivity.
Qed.

Lemma validation_without_reload_witness :
  snd (validateApiKey world0 "a" (loaded keys_mixed)) = loaded keys_mixed.
Proof.
  apply (validation_without_reload world0 "a" (loaded keys_mixed)).
  left. vm_compute. discriminate.
Defined.

(** X12: a load from a file that reads and parses replaces the whole key
    set by the keys of the file (none, when the document has no [keys]) and
    stamps the load, awaited as well as started by a validation and settled
    later; a key that is not in the file is rejected from then on, whatever
    the set held before. *)
Theorem file_reload_replaces_keys w m storage :
  source m = "file" ->
  loading m = false ->
  readFile w (path m) = Some (Storage storage) ->
  let m' := {| source := source m; path := path m;
               keys := default [] (storage_keys storage);
               loading := false; lastLoaded := now w |} in
  loadKeys w m = Return m'
  /\ (forall w0, loadKeys_settled w (loadKeys_started w0 m) = m')
  /\ (forall w' apiKey,
        (forall k, In k (default [] (storage_keys storage)) ->
                   key k <> apiKey) ->
        fst (validateApiKey w' apiKey m') = Invalid).
Proof.
  intros Hs Hidle Hread m'.
  assert (Hguard : loadKeys_guarded w (set_loading true m) = Return m').
  { unfold loadKeys_guarded, loadKeys_try, loadKeysFromFile. simpl.
    rewrite Hs. simpl. rewrite Hread. reflexivity. }
  split; [| split].
  - unfold loadKeys. rewrite Hidle. exact Hguard.
  - intros w0. rewrite ApiKeyFacts.started_from_file by exact Hs.
    unfold loadKeys_settled. rewrite Hguard. reflexivity.
  - intros w' apiKey Hno. unfold validateApiKey. simpl.
    rewrite ApiKeyFacts.reload_keeps_keys
      by (simpl; rewrite Hs; discriminate).
    simpl. rewrite find_key_none by exact Hno. reflexivity.
Qed.

Lemma file_reload_replaces_keys_witness :
  fst (validateApiKey world_new_file "a"
         {| source := "file"; path := "keys.json";
            keys := [record "d" true None];
            loading := false; lastLoaded := 1301001 |}) = Invalid.
Proof.
  apply (file_reload_replaces_keys world_new_file (loaded keys_mixed)
           {| storage_keys := Some [record "d" true None] |}
           eq_refl eq_refl eq_refl).
  intros k [<- | []]. discriminate.
Defined.

(** X13: a manager whose source is neither the file nor the environment
    (the secrets service, which is not implemented, or an unknown name)
    initializes without an error and with no key, and rejects every key
    from then on. *)
Theorem unknown_source_accepts_no_key src p w :
  src <> "file" -> src <> "env" ->
  exists m,
    initialize w (create src p) = Return m
    /\ keys m = []
    /\ forall w' apiKey,
         fst (validateApiKey w' apiKey m) = Invalid
         /\ keys (snd (validateApiKey w' apiKey m)) = [].
Proof.
  intros Hf He.
  apply String.eqb_neq in Hf. apply String.eqb_neq in He.
  eexists. split; [| split].
  - unfold initialize, loadKeys, loadKeys_guarded, loadKeys_try. simpl.
    rewrite Hf, He. reflexivity.
  - reflexivity.
  - intros w' apiKey.
    assert (Hk : keys (reloadIfNeeded w'
                         (set_loading false
                            (set_lastLoaded (now w)
                               (set_loading true (create src p))))) = []).
    { rewrite ApiKeyFacts.reload_keeps_keys; [reflexivity |].
      simpl. apply String.eqb_neq. exact He. }
    unfold validateApiKey. simpl. rewrite Hk. split; reflexivity.
Qed.

Lemma unknown_source_accepts_no_key_witness :
  exists m,
    initialize world0 (create "aws" "") = Return m
    /\ keys m = []
    /\ forall w' apiKey,
         fst (validateApiKey w' apiKey m) = Invalid
         /\ keys (snd (validateApiKey w' apiKey m)) = [].
Proof.
  apply (unknown_source_accepts_no_key "aws" "" world0); discriminate.
Defined.

(** X14: with the environment as source, no JSON variable that parses and
    the single key set, initialization yields exactly that key: it is
    accepted, with the client id, permissions and sites of the
    environment or their defaults, and every other key is rejected. *)
Theorem env_single_key w p singleKey :
  API_KEYS w = None \/ API_KEYS w = Some Malformed ->
  API_KEY w = Some singleKey ->
  exists m,
    initialize w (create "env" p) = Return m
    /\ fst (validateApiKey w singleKey m)
       = Valid (default "default-client" (API_CLIENT_ID w))
               (split_comma (default "*" (API_AUTHORIZED_SITES w)))
               (split_comma (default "read,write" (API_PERMISSIONS w))) []
    /\ forall apiKey,
         apiKey <> singleKey -> fst (validateApiKey w apiKey m) = Invalid.
Proof.
  intros Hjson Hkey.
  assert (Hload : loadKeysFromEnv w (set_loading true (create "env" p))
                  = Return (set_keys
                      [ {| key := singleKey;
                           name := "Environment API Key";
                           clientId :=
                             default "default-client" (API_CLIENT_ID w);
                           permissions :=
                             split_comma
                               (default "read,write" (API_PERMISSIONS w));
                           authorizedSites :=
                             split_comma
                               (default "*" (API_AUTHORIZED_SITES w));
                           active := true;
                           created := IsoDate (now w);
                           expires := None |} ]
                      (set_loading true (create "env" p)))).
  { unfold loadKeysFromEnv. rewrite Hkey.
    destruct Hjson as [-> | ->]; reflexivity. }
  eexists. split; [| split].
  - unfold initialize, loadKeys, loadKeys_guarded, loadKeys_try. simpl.
    rewrite Hload. reflexivity.
  - unfold validateApiKey, reloadIfNeeded. simpl.
    rewrite Z.sub_diag. simpl. rewrite String.eqb_refl. reflexivity.
  - intros apiKey Hne. unfold validateApiKey, reloadIfNeeded. simpl.
    rewrite Z.sub_diag. simpl.
    assert (Hk : String.eqb singleKey apiKey = false)
      by (apply String.eqb_neq; congruence).
    rewrite Hk. reflexivity.
Qed.

Lemma env_single_key_witness :
  exists m,
    initialize world_single_key (create "env" "") = Return m
    /\ fst (validateApiKey world_single_key "s3cr3t" m)
       = Valid "default-client" ["blog"; "shop"] ["read"] []
    /\ forall apiKey,
         apiKey <> "s3cr3t" ->
         fst (validateApiKey world_single_key apiKey m) = Invalid.
Proof.
  apply (env_single_key world_single_key "" "s3cr3t").
  - right. reflexivity.
  - reflexivity.
Defined.

(** X15: with the environment as source, a validation that finds the set
    stale reloads it before it looks the key up: when the environment then
    has no JSON variable that parses and no single key, the set is emptied
    and the key rejected, whatever the set held. *)
Theorem env_reload_precedes_lookup w apiKey m :
  source m = "env" ->
  loading m = false ->
  (now w - lastLoaded m > RELOAD_INTERVAL)%Z ->
  API_KEYS w = None \/ API_KEYS w = Some Malformed ->
  API_KEY w = None ->
  validateApiKey w apiKey m
  = (Invalid, {| source := "env"; path := path m; keys := [];
                 loading := false; lastLoaded := now w |}).
Proof.
  intros Hs Hidle Hstale Hjson Hkey.
  destruct m as [s p ks l t]. simpl in *. subst s l.
  unfold validateApiKey, reloadIfNeeded. simpl.
  apply Z.gtb_gt in Hstale. rewrite Hstale.
  unfold loadKeys_started, loadKeys_guarded, loadKeys_try, loadKeysFromEnv.
  simpl. rewrite Hkey.
  destruct Hjson as [-> | ->]; reflexivity.
Qed.

Lemma env_reload_precedes_lookup_witness :
  fst (validateApiKey world_later "a" (loaded_from_env keys_mixed))
  = Invalid.
Proof.
  rewrite (env_reload_precedes_lookup world_later "a"
             (loaded_from_env keys_mixed)).
  - reflexivity.
  - reflexivity.
  - reflexivity.
  - vm_compute. reflexivity.
  - left. reflexivity.
  - reflexivity.
Defined.

Lemma append_cons x (a b : string) : String x a +:+ b = String x (a +:+ b).
Proof. reflexivity. Qed.

Lemma append_assoc' (a b c : string) : (a +:+ b) +:+ c = a +:+ (b +:+ c).
Proof.
  induction a as [| x a IH]; [reflexivity |].
  rewrite !append_cons, IH. reflexivity.
Qed.

Lemma append_empty (a : string) : a +:+ "" = a.
Proof.
  induction a as [| x a IH]; [reflexivity |].
  rewrite append_cons, IH. reflexivity.
Qed.

Lemma rev_app_append (s1 s2 : string) :
  String.rev_app s1 s2 = String.rev s1 +:+ s2.
Proof.
  unfold String.rev. revert s2.
  induction s1 as [| c s1 IH]; intros s2; simpl; [reflexivity |].
  rewrite (IH (String c s2)), (IH (String c "")).
  rewrite append_assoc'. reflexivity.
Qed.

Lemma rev_cons c (acc : string) :
  String.rev (String c acc) = String.rev acc +:+ String c "".
Proof. unfold String.rev at 1. simpl. apply rev_app_append. Qed.

Lemma rev_app_chars (s1 s2 : string) :
  list_ascii_of_string (String.rev_app s1 s2)
  = (List.rev (list_ascii_of_string s1) ++ list_ascii_of_string s2)%list.
Proof.
  revert s2. induction s1 as [| c s1 IH]; intros s2; simpl; [reflexivity |].
  rewrite IH. simpl. rewrite <- app_assoc. reflexivity.
Qed.

Lemma split_comma_from_cons acc s :
  exists part parts, split_comma_from acc s = part :: parts.
Proof.
  revert acc. induction s as [| c s IH]; intros acc; simpl.
  - eauto.
  - destruct (Ascii.eqb c ","); [eauto | apply IH].
Qed.

Lemma split_comma_from_concat acc s :
  String.concat "," (split_comma_from acc s) = String.rev acc +:+ s.
Proof.
  revert acc. induction s as [| c s IH]; intros acc; simpl.
  - symmetry. apply append_empty.
  - destruct (Ascii.eqb c ",") eqn:Hc.
    + apply Ascii.eqb_eq in Hc. subst c.
      destruct (split_comma_from_cons "" s) as [part [parts Hparts]].
      specialize (IH ""). rewrite Hparts in IH |- *.
      change (String.concat "," (String.rev acc :: part :: parts))
        with (String.rev acc +:+ "," +:+ String.concat "," (part :: parts)).
      rewrite IH. reflexivity.
    + rewrite IH, rev_cons, append_assoc'. reflexivity.
Qed.

Lemma split_comma_from_parts acc s :
  ~ In ","%char (list_ascii_of_string acc) ->
  Forall (fun part => ~ In ","%char (list_ascii_of_string part))
         (split_comma_from acc s).
Proof.
  revert acc. induction s as [| c s IH]; intros acc Hacc; simpl.
  - constructor; [| constructor].
    unfold String.rev. rewrite rev_app_chars, app_nil_r, <- in_rev.
    exact Hacc.
  - destruct (Ascii.eqb c ",") eqn:Hc.
    + constructor.
      * unfold String.rev. rewrite rev_app_chars, app_nil_r, <- in_rev.
        exact Hacc.
      * apply IH. simpl. tauto.
    + apply IH. simpl. intros [Heq | Hin]; [| contradiction].
      subst c. discriminate Hc.
Qed.

(** X16: the parts into which a list variable of the environment
    ([API_PERMISSIONS], [API_AUTHORIZED_SITES]) is split at its commas hold
    no comma, there is at least one, and joined by commas they give the
    text back. *)
Theorem split_comma_join s :
  String.concat "," (split_comma s) = s
  /\ split_comma s <> []
  /\ Forall (fun part => ~ In ","%char (list_ascii_of_string part))
            (split_comma s).
Proof.
  unfold split_comma. split; [| split].
  - apply split_comma_from_concat.
  - destruct (split_comma_from_cons "" s) as [part [parts ->]]. discriminate.
  - apply split_comma_from_parts. simpl. tauto.
Qed.

(** The first record of a key set with a given key. *)
Lemma valid_result_record w apiKey m clientId sites perms scopes :
  fst (validateApiKey w apiKey m) = Valid clientId sites perms scopes ->
  exists k,
    List.find (fun k => String.eqb (key k) apiKey)
              (keys (snd (validateApiKey w apiKey m))) = Some k
    /\ active k = true /\ expired w k = false
    /\ clientId = ApiKeys.clientId k
    /\ sites = authorizedSites k
    /\ perms = permissions k
    /\ scopes = [].
Proof.
  unfold validateApiKey. simpl.
  destruct (List.find _ _) as [k |]; [| discriminate].
  destruct (active k) eqn:Ha; simpl; [| discriminate].
  destruct (expired w k) eqn:He; simpl; [discriminate |].
  intros [= <- <- <- <-]. exists k. repeat split; assumption || reflexivity.
Qed.



(** The middleware over a manager whose key set is a list of records. *)
Lemma authMiddleware_cases development w req m :
  Middleware.authMiddleware development w req m
  = if Middleware.no_key
         (Middleware.or_header (Middleware.header req "X-API-Key")
                               (Middleware.header req "X-MCP-Key"))
    then (Middleware.unauthorized "Authentication required", m)
    else
      let key :=
        default "" (Middleware.or_header (Middleware.header req "X-API-Key")
                                         (Middleware.header req "X-MCP-Key"))
      in
      match fst (validateApiKey w key m) with
      | Invalid =>
          (Middleware.unauthorized "Invalid API key",
           snd (validateApiKey w key m))
      | Valid c sites perms scopes =>
          (Middleware.Next {| JsonRpc.clientId := c;
                              JsonRpc.authorizedSites := sites;
                              JsonRpc.permissions := perms;
                              JsonRpc.scopes := scopes |}
                           (if development then Some c else None),
           snd (validateApiKey w key m))
      end.
Proof.
  unfold Middleware.authMiddleware, Middleware.createAuthMiddleware.
  destruct (Middleware.no_key _); reflexivity.
Qed.



(** X19: the authorization the middleware attaches to a request it passes
    on is that of the first record of the key set with the key of the
    request, which is active and not expired: its client id, sites and
    permissions, and no scope; the response names the client in
    [X-MCP-Client] only in development. *)
Theorem middleware_attaches_record development w req m context debug :
  fst (Middleware.authMiddleware development w req m)
  = Middleware.Next context debug ->
  exists apiKey k,
    Middleware.or_header (Middleware.header req "X-API-Key")
                         (Middleware.header req "X-MCP-Key") = Some apiKey
    /\ List.find (fun k => String.eqb (key k) apiKey)
                 (keys (snd (Middleware.authMiddleware development w req m)))
       = Some k
    /\ active k = true /\ expired w k = false
    /\ context = {| JsonRpc.clientId := clientId k;
                    JsonRpc.authorizedSites := authorizedSites k;
                    JsonRpc.permissions := permissions k;
                    JsonRpc.scopes := [] |}
    /\ debug = if development then Some (clientId k) else None.
Proof.
  rewrite authMiddleware_cases. unfold Middleware.no_key.
  destruct (Middleware.or_header _ _) as [apiKey |] eqn:Hk;
    [| discriminate].
  destruct (String.eqb apiKey ""); [discriminate |].
  change (default "" (Some apiKey)) with apiKey. cbv zeta.
  destruct (fst (validateApiKey w apiKey m))
    as [| c sites perms scopes] eqn:Hv; [discriminate |].
  simpl. intros [= <- <-].
  destruct (valid_result_record w apiKey m c sites perms scopes Hv)
    as [k [Hfind [Hact [Hexp [-> [-> [-> ->]]]]]]].
  exists apiKey, k. repeat split; assumption || reflexivity.
Qed.

Lemma middleware_attaches_record_witness :
  exists context,
    fst (Middleware.authMiddleware true world0
           (request_with "X-MCP-Key" "d") (loaded keys_mixed))
    = Middleware.Next context (Some "client-d")
    /\ JsonRpc.permissions context = ["read"; "write"].
Proof.
  eexists. split; [vm_compute; reflexivity |].
  destruct (middleware_attaches_record true world0
              (request_with "X-MCP-Key" "d") (loaded keys_mixed)
              {| JsonRpc.clientId := "client-d";
                 JsonRpc.authorizedSites := ["*"];
                 JsonRpc.permissions := ["read"; "write"];
                 JsonRpc.scopes := [] |} (Some "client-d")
              ltac:(vm_compute; reflexivity))
    as [apiKey [k [_ [_ [_ [_ [Hc _]]]]]]].
  reflexivity.
Defined.

End ApiKeyMore.

(** ** Further properties of the site manager *)

Module SiteMore.

Import Sites SiteExamples MoreSiteExamples.

Lemma without_with_field k v (o : fields) :
  without k (with_field k v o) = without k o.
Proof.
  unfold without. induction o as [| [k' v'] rest IH]; simpl.
  - rewrite String.eqb_refl. reflexivity.
  - destruct (String.eqb k' k) eqn:Hk; simpl.
    + rewrite String.eqb_refl. simpl. reflexivity.
    + rewrite Hk. simpl. rewrite IH. reflexivity.
Qed.

Lemma without_no_key k (o : fields) : has_key k o = false -> without k o = o.
Proof.
  unfold has_key, without. induction o as [| [k' v'] rest IH]; simpl;
    [reflexivity |].
  destruct (String.eqb k' k); simpl; [discriminate |].
  intros H. rewrite IH by exact H. reflexivity.
Qed.

Lemma manager_eta (m : WordPressSiteManager) :
  {| configPath := configPath m; sites := sites m; clients := clients m |}
  = m.
Proof. destruct m; reflexivity. Qed.



(** X21: after [removeSite(siteId)], whether the save went through or
    not, the site is not configured and has no cached client:
    [getSiteConfig] returns null and [getClient] throws the error of code
    -32001 without constructing a client; every other site keeps its
    configuration and its client. For a site that was not configured
    nothing is written. *)
Theorem removeSite_forgets_site {secrets : Type}
    siteId (s : System secrets) checkConnection :
  let s' := snd (removeSite siteId s) in
  getSiteConfig siteId (manager s') = None
  /\ clients (manager s') !! siteId = None
  /\ getClient checkConnection siteId (manager s')
     = {| outcome := Throw (JsonRpcError
                              ("Unknown WordPress site: " +:+ siteId)
                              (-32001) (VObj [("siteId", VStr siteId)]));
          after := manager s'; constructed := [] |}
  /\ (forall other,
        other <> siteId ->
        sites (manager s') !! other = sites (manager s) !! other
        /\ clients (manager s') !! other = clients (manager s) !! other)
  /\ (sites (manager s) !! siteId = None ->
      fst (removeSite siteId s) = Return tt /\ disk s' = disk s).
Proof.
  assert (Hsites : sites (manager (snd (removeSite siteId s)))
                   = delete siteId (sites (manager s))).
  { unfold removeSite. simpl.
    destruct (sites (manager s) !! siteId) eqn:Hsite; simpl.
    - destruct (saveSiteConfigurations _ _); reflexivity.
    - symmetry. apply delete_id. exact Hsite. }
  assert (Hclients : clients (manager (snd (removeSite siteId s)))
                     = delete siteId (clients (manager s))).
  { unfold removeSite. simpl.
    destruct (sites (manager s) !! siteId); simpl;
      [destruct (saveSiteConfigurations _ _) |]; reflexivity. }
  simpl. split; [| split; [| split; [| split]]].
  - unfold getSiteConfig. rewrite Hsites, lookup_delete_eq. reflexivity.
  - rewrite Hclients. apply lookup_delete_eq.
  - unfold getClient. rewrite Hsites, lookup_delete_eq. reflexivity.
  - intros other Hne. rewrite Hsites, Hclients.
    rewrite !lookup_delete_ne by congruence. auto.
  - intros Hnone. unfold removeSite. simpl. rewrite Hnone. auto.
Qed.

(** X22: [addSite] is all or nothing only up to the save. When the
    secrets manager refuses the credentials, [addSite] throws that error
    and nothing changes; when the credentials are stored and the write of
    the configuration file fails, [addSite] throws 'Failed to save site
    configurations' and yet the site is configured in memory, with its
    credentials, the file as it was. *)
Theorem addSite_failures {secrets : Type}
    (secretsManager : SecretsManager secrets)
    siteId config credentials (s : System secrets) :
  (forall error,
     storeCredentials secretsManager siteId credentials (vault s)
     = Throw error ->
     addSite secretsManager siteId config credentials s = (Throw error, s))
  /\ (forall vault',
        storeCredentials secretsManager siteId credentials (vault s)
        = Return vault' ->
        writable (disk s) (configPath (manager s)) = false ->
        let result := addSite secretsManager siteId config credentials s in
        fst result
        = Throw (OtherError "Error" "Failed to save site configurations")
        /\ sites (manager (snd result)) !! siteId
           = Some (with_field "credentials" (credentials_value credentials)
                              config)
        /\ vault (snd result) = vault'
        /\ disk (snd result) = disk s).
Proof.
  unfold addSite. split.
  - intros error ->. reflexivity.
  - intros vault' -> Hro.
    unfold saveSiteConfigurations, writeFile. simpl. rewrite Hro. simpl.
    repeat split. apply lookup_insert_eq.
Qed.

Lemma addSite_failures_witness :
  addSite vaultManager "shop" shop_config shop_credentials
    system_sealed
  = (Throw (OtherError "Error" "The vault is sealed"), system_sealed)
  /\ fst (addSite vaultManager "shop" shop_config shop_credentials
            system_readonly)
     = Throw (OtherError "Error" "Failed to save site configurations").
Proof.
  split.
  - apply (proj1 (addSite_failures vaultManager "shop" shop_config
                    shop_credentials system_sealed)).
    reflexivity.
  - apply (proj2 (addSite_failures vaultManager "shop" shop_config
                    shop_credentials system_readonly)
             {| held := {[ "shop" := shop_credentials ]};
                sealed := false |}).
    + vm_compute. reflexivity.
    + reflexivity.
Defined.

(** X23: neither [addSite] nor [initialize] touches the client cache, so
    a site that is configured anew while its client is cached keeps being
    served, by [getClient], the client built from the configuration and the
    credentials it had before. *)
Theorem reconfigured_site_keeps_cached_client {secrets : Type}
    (secretsManager : SecretsManager secrets)
    siteId config credentials (s : System secrets) checkConnection client :
  clients (manager s) !! siteId = Some client ->
  let s' := snd (addSite secretsManager siteId config credentials s) in
  clients (manager s') = clients (manager s)
  /\ clients (manager (snd (initialize secretsManager s)))
     = clients (manager s)
  /\ (fst (addSite secretsManager siteId config credentials s) = Return tt ->
      getClient checkConnection siteId (manager s')
      = {| outcome := Return client; after := manager s';
           constructed := [] |}).
Proof.
  intros Hc. simpl.
  assert (Hadd : clients (manager (snd (addSite secretsManager siteId config
                                          credentials s)))
                 = clients (manager s)).
  { unfold addSite.
    destruct (storeCredentials _ _ _ _); simpl; [| reflexivity].
    destruct (saveSiteConfigurations _ _); reflexivity. }
  split; [exact Hadd | split].
  - unfold initialize, loadSiteConfigurations.
    destruct (files (disk s) !! configPath (manager s)) as [[| v] |];
      simpl; try reflexivity.
    destruct (is_null v || is_undefined v); reflexivity.
  - intros Hok. unfold getClient. rewrite Hadd, Hc.
    revert Hok. unfold addSite.
    destruct (storeCredentials _ _ _ _); simpl; [| discriminate].
    destruct (saveSiteConfigurations _ _); simpl; [| discriminate].
    intros _. rewrite lookup_insert_eq. reflexivity.
Qed.

Lemma reconfigured_site_keeps_cached_client_witness :
  getClient unreachable "blog"
    (manager (snd (addSite vaultManager "blog" shop_config
                     shop_credentials system2)))
  = {| outcome := Return blog_client;
       after := manager (snd (addSite vaultManager "blog" shop_config
                                shop_credentials system2));
       constructed := [] |}.
Proof.
  apply (proj2 (proj2 (reconfigured_site_keeps_cached_client
                         vaultManager "blog" shop_config
                         shop_credentials system2 unreachable blog_client
                         ltac:(vm_compute; reflexivity)))).
  vm_compute. reflexivity.
Defined.

Section Loading.

Context {secrets : Type}.
Variable secretsManager : SecretsManager secrets.
Variable store : secrets.

(** The sites the loop of [loadSiteConfigurations] leaves: those it
    started with, and the listed ones whose credentials resolve. *)
Lemma loadSites_is_Some (todo : fields) (acc : gmap string fields) siteId :
  is_Some (loadSites secretsManager store todo acc !! siteId) <->
  is_Some (acc !! siteId)
  \/ (siteId ∈ todo.*1
      /\ exists c, getCredentials secretsManager siteId store = Return c).
Proof.
  revert acc. induction todo as [| [k v] rest IH]; intros acc; simpl.
  - split; [auto |]. intros [H | [H _]]; [exact H |].
    apply elem_of_nil in H. contradiction.
  - destruct (getCredentials secretsManager k store) as [c | e] eqn:Hc.
    + rewrite IH. rewrite lookup_insert_is_Some.
      split.
      * intros [[Heq | [_ H]] | [Hin Hres]].
        -- subst k. right. split; [apply elem_of_cons; auto | eauto].
        -- auto.
        -- right. split; [apply elem_of_cons; auto | exact Hres].
      * intros [H | [Hin Hres]].
        -- destruct (decide (k = siteId)); auto.
        -- apply elem_of_cons in Hin as [Heq | Hin]; [left; left; auto |].
           right. auto.
    + rewrite IH. split.
      * intros [H | [Hin Hres]]; [auto |].
        right. split; [apply elem_of_cons; auto | exact Hres].
      * intros [H | [Hin [c Hres]]]; [auto |].
        apply elem_of_cons in Hin as [Heq | Hin].
        -- subst k. congruence.
        -- right. eauto.
Qed.

Lemma loadSites_Some (todo : fields) (acc : gmap string fields) siteId cfg :
  loadSites secretsManager store todo acc !! siteId = Some cfg ->
  acc !! siteId = Some cfg
  \/ exists c v,
       getCredentials secretsManager siteId store = Return c
       /\ (siteId, v) ∈ todo
       /\ cfg = with_field "credentials" (credentials_value c) (entries v).
Proof.
  revert acc. induction todo as [| [k v] rest IH]; intros acc; simpl.
  - auto.
  - destruct (getCredentials secretsManager k store) as [c | e] eqn:Hc.
    + intros H. apply IH in H as [H | [c' [v' [Hres [Hin ->]]]]].
      * destruct (decide (k = siteId)) as [-> | Hne].
        -- rewrite lookup_insert_eq in H. injection H as <-.
           right. exists c, v. split; [exact Hc | split; [| reflexivity]].
           apply elem_of_cons. auto.
        -- rewrite lookup_insert_ne in H by exact Hne. auto.
      * right. exists c', v'. split; [exact Hres | split; [| reflexivity]].
        apply elem_of_cons. auto.
    + intros H. apply IH in H as [H | [c' [v' [Hres [Hin ->]]]]]; [auto |].
      right. exists c', v'. split; [exact Hres | split; [| reflexivity]].
      apply elem_of_cons. auto.
Qed.

End Loading.

(** X24: when the configuration file parses to a document that is
    neither null nor undefined, [initialize] returns normally and the
    configured sites are then exactly the names the [sites] member of the
    document lists (the property names of an object, the indices of an
    array or of a text) whose credentials the secrets manager resolves:
    the sites configured before are dropped, a site whose credentials fail
    is left out; each carries, as [credentials], what the secrets manager
    returned for it. *)
Theorem initialize_loads_resolvable_sites {secrets : Type}
    (secretsManager : SecretsManager secrets) (s : System secrets) document :
  files (disk s) !! configPath (manager s) = Some (Json document) ->
  is_null document || is_undefined document = false ->
  let listed :=
    if truthy (get "sites" document) then entries (get "sites" document)
    else [] in
  let s' := snd (initialize secretsManager s) in
  fst (initialize secretsManager s) = Return tt
  /\ (forall siteId,
        is_Some (sites (manager s') !! siteId) <->
        siteId ∈ listed.*1
        /\ exists c,
             getCredentials secretsManager siteId (vault s) = Return c)
  /\ (forall siteId cfg,
        sites (manager s') !! siteId = Some cfg ->
        exists c,
          getCredentials secretsManager siteId (vault s) = Return c
          /\ assoc "credentials" cfg = credentials_value c).
Proof.
  intros Hfile Hnull listed s'. subst s'.
  unfold initialize, loadSiteConfigurations. rewrite Hfile, Hnull. simpl.
  fold listed. split; [reflexivity | split].
  - intros siteId. rewrite loadSites_is_Some. split.
    + intros [H | H]; [| exact H].
      rewrite lookup_empty in H. destruct H as [x H]. discriminate H.
    + auto.
  - intros siteId cfg H.
    apply loadSites_Some in H as [H | [c [v [Hres [_ ->]]]]].
    + rewrite lookup_empty in H. discriminate H.
    + exists c. split; [exact Hres | apply SiteFacts.assoc_with_field].
Qed.

(** X25: when the configuration file is missing or is not JSON,
    [initialize] throws 'Site configuration failed to load' and the manager
    keeps its sites; when the file parses to [null], it throws the same
    error after the site map was cleared. *)
Theorem initialize_failures {secrets : Type}
    (secretsManager : SecretsManager secrets) (s : System secrets) :
  let failed :=
    Throw (OtherError "Error" "Site configuration failed to load") in
  (files (disk s) !! configPath (manager s) = None
   \/ files (disk s) !! configPath (manager s) = Some Text ->
   initialize secretsManager s = (failed, s))
  /\ (files (disk s) !! configPath (manager s) = Some (Json VNull) ->
      fst (initialize secretsManager s) = failed
      /\ sites (manager (snd (initialize secretsManager s))) = ∅).
Proof.
  simpl. unfold initialize, loadSiteConfigurations. split.
  - intros [-> | ->]; reflexivity.
  - intros ->. simpl. auto.
Qed.

Lemma initialize_failures_witness :
  initialize vaultManager system0
  = (Throw (OtherError "Error" "Site configuration failed to load"),
     system0).
Proof.
  apply (proj1 (initialize_failures vaultManager system0)).
  left. reflexivity.
Defined.

Lemma set_sites_back (m : WordPressSiteManager) loaded :
  loaded = sites m -> set_sites loaded (set_sites ∅ m) = m.
Proof. intros ->. destruct m; reflexivity. Qed.

(** The sites the saved document lists. *)
Lemma saved_sites m :
  exists listed,
    get "sites" (serialised (sitesDocument m)) = VObj listed
    /\ forall k v,
         (k, v) ∈ listed <->
         exists cfg,
           delete "__proto__" (sites m) !! k = Some cfg
           /\ v = serialised (VObj (without "credentials" cfg)).
Proof.
  unfold sitesDocument.
  set (saved := (fun config => VObj (without "credentials" config))
                  <$> delete "__proto__" (sites m)).
  exists (serialised_properties (map_to_list saved)).
  split; [reflexivity |].
  rewrite SiteFacts.serialised_properties_defined.
  2:{ apply Forall_forall. intros [k v] Hin.
      apply elem_of_map_to_list in Hin. unfold saved in Hin.
      rewrite lookup_fmap in Hin.
      destruct (delete "__proto__" (sites m) !! k); [| discriminate].
      injection Hin as <-. reflexivity. }
  intros k v. rewrite list_elem_of_fmap. split.
  - intros [[k' v'] [[= -> ->] Hin]].
    apply elem_of_map_to_list in Hin. unfold saved in Hin.
    rewrite lookup_fmap in Hin.
    destruct (delete "__proto__" (sites m) !! k') as [cfg |];
      [| discriminate].
    injection Hin as <-. exists cfg. auto.
  - intros [cfg [Hsite ->]].
    exists (k, VObj (without "credentials" cfg)). split; [reflexivity |].
    apply elem_of_map_to_list. unfold saved.
    rewrite lookup_fmap, Hsite. reflexivity.
Qed.

(** X26: what [saveSiteConfigurations] writes, [initialize] reads back:
    when no site is named [__proto__], every configured site is JSON data
    (its serialisation is itself) with its credentials as last property,
    and the secrets manager resolves these credentials, a save followed by
    [initialize] returns normally and leaves the site map as it was. *)
Theorem save_then_initialize_restores_sites {secrets : Type}
    (secretsManager : SecretsManager secrets) (s : System secrets) disk' :
  saveSiteConfigurations (disk s) (manager s) = Return disk' ->
  sites (manager s) !! "__proto__" = None ->
  (forall siteId cfg,
     sites (manager s) !! siteId = Some cfg ->
     exists c,
       getCredentials secretsManager siteId (vault s) = Return c
       /\ cfg = with_field "credentials" (credentials_value c)
                           (without "credentials" cfg)
       /\ serialised (VObj (without "credentials" cfg))
          = VObj (without "credentials" cfg)) ->
  initialize secretsManager (Build_System (manager s) (vault s) disk')
  = (Return tt, Build_System (manager s) (vault s) disk').
Proof.
  intros Hsave Hproto Hcreds.
  destruct (saved_sites (manager s)) as [listed [Hsites Hlisted]].
  rewrite (delete_id _ _ Hproto) in Hlisted.
  unfold initialize, loadSiteConfigurations.
  cbn [manager vault disk].
  rewrite (SiteFacts.saveSiteConfigurations_writes _ _ _ Hsave).
  rewrite lookup_insert_eq.
  change (is_null (serialised (sitesDocument (manager s)))
          || is_undefined (serialised (sitesDocument (manager s))))
    with false.
  cbv iota. rewrite Hsites.
  cbn [truthy entries manager vault disk].
  f_equal. f_equal.
  apply set_sites_back.
  apply map_eq. intros siteId.
  destruct (sites (manager s) !! siteId) as [cfg |] eqn:Hsite.
  - destruct (Hcreds siteId cfg Hsite) as [c [Hres [Hcfg Hjson]]].
    assert (Hin : (siteId, VObj (without "credentials" cfg)) ∈ listed).
    { apply Hlisted. exists cfg. split; [exact Hsite |].
      symmetry. exact Hjson. }
    destruct (proj2 (loadSites_is_Some secretsManager (vault s)
                       listed ∅ siteId)) as [cfg' Hcfg'].
    { right. split; [| eauto].
      apply list_elem_of_fmap. eexists. split; [| exact Hin]. reflexivity. }
    rewrite Hcfg'. f_equal.
    apply loadSites_Some in Hcfg' as [H | [c' [v' [Hres' [Hin' ->]]]]].
    + rewrite lookup_empty in H. discriminate H.
    + apply Hlisted in Hin' as [cfg0 [Hsite0 ->]].
      rewrite Hsite in Hsite0. injection Hsite0 as <-.
      rewrite Hjson. cbn [entries].
      rewrite Hres in Hres'. injection Hres' as <-.
      symmetry. exact Hcfg.
  - destruct (loadSites secretsManager (vault s) listed ∅ !! siteId)
      as [cfg' |] eqn:Hload; [| reflexivity].
    exfalso.
    assert (Hsome : is_Some (loadSites secretsManager (vault s) listed ∅
                               !! siteId))
      by (rewrite Hload; eauto).
    apply loadSites_is_Some in Hsome as [[x H] | [Hin _]].
    + rewrite lookup_empty in H. discriminate H.
    + apply list_elem_of_fmap in Hin as [[k v] [Hk Hin]].
      simpl in Hk. subst k.
      apply Hlisted in Hin as [cfg0 [Hsite0 _]].
      rewrite Hsite in Hsite0. discriminate Hsite0.
Qed.

Lemma save_then_initialize_restores_sites_witness :
  initialize vaultManager system1 = (Return tt, system1).
Proof.
  assert (Hsites : sites (manager system1)
                   = {[ "blog" := with_field "credentials"
                                    (credentials_value blog_credentials)
                                    blog_config ]})
    by (vm_compute; reflexivity).
  apply (save_then_initialize_restores_sites vaultManager
           (Build_System (manager system1) (vault system1) (disk system0))
           (disk system1)).
  - vm_compute. reflexivity.
  - vm_compute. reflexivity.
  - intros siteId cfg Hsite.
    change (sites (manager system1) !! siteId = Some cfg) in Hsite.
    rewrite Hsites in Hsite.
    apply lookup_singleton_Some in Hsite as [<- <-].
    exists blog_credentials.
    split; [| split]; vm_compute; reflexivity.
Defined.

Lemma initialize_loads_resolvable_sites_witness :
  fst (initialize vaultManager system1) = Return tt.
Proof.
  apply (initialize_loads_resolvable_sites vaultManager system1
           (sitesDocument (manager system1))).
  - vm_compute. reflexivity.
  - reflexivity.
Defined.

Lemma strip_trailing_slash_app (u : string) :
  strip_trailing_slash (u +:+ "/") = u.
Proof.
  induction u as [| c u IH]; [reflexivity |].
  change (String c u +:+ "/") with (String c (u +:+ "/")).
  destruct u as [| d u].
  - reflexivity.
  - change (String d u +:+ "/") with (String d (u +:+ "/")) in *.
    simpl. simpl in IH. rewrite IH. reflexivity.
Qed.

Lemma strip_trailing_slash_id (u : string) :
  (forall v, u <> v +:+ "/") -> strip_trailing_slash u = u.
Proof.
  induction u as [| c u IH]; intros Hno; [reflexivity |].
  destruct u as [| d u].
  - simpl. destruct (Ascii.eqb c "/") eqn:Hc; [| reflexivity].
    apply Ascii.eqb_eq in Hc. subst c. exfalso. apply (Hno ""). reflexivity.
  - change (strip_trailing_slash (String c (String d u)))
      with (String c (strip_trailing_slash (String d u))).
    rewrite IH; [reflexivity |].
    intros v Hv. apply (Hno (String c v)). rewrite Hv. reflexivity.
Qed.

(** X27: for a configuration whose [credentials] is neither undefined
    nor null, the client takes as base URL the [baseUrl] of the
    configuration without its trailing slash, one slash at most, and keeps
    a [baseUrl] that does not end in a slash; the construction throws a
    [TypeError] when [baseUrl] is not a string or [credentials] is
    undefined or null. *)
Theorem client_base_url config :
  (is_undefined (assoc "credentials" config)
   || is_null (assoc "credentials" config) = false ->
   (forall u,
      assoc "baseUrl" config = VStr (u +:+ "/") ->
      newWordPressClient config
      = Return {| Sites.config := config; baseUrl := u |})
   /\ (forall u,
         assoc "baseUrl" config = VStr u ->
         (forall v, u <> v +:+ "/") ->
         newWordPressClient config
         = Return {| Sites.config := config; baseUrl := u |}))
  /\ (is_string (assoc "baseUrl" config) = false
      \/ is_undefined (assoc "credentials" config)
         || is_null (assoc "credentials" config) = true ->
      exists message,
        newWordPressClient config = Throw (OtherError "TypeError" message)).
Proof.
  unfold newWordPressClient. split.
  - intros Hc. rewrite Hc. split.
    + intros u ->. rewrite strip_trailing_slash_app. reflexivity.
    + intros u -> Hno. rewrite strip_trailing_slash_id by exact Hno.
      reflexivity.
  - intros [Hb | Hc].
    + destruct (assoc "baseUrl" config); try discriminate;
        eexists; reflexivity.
    + rewrite Hc. destruct (assoc "baseUrl" config); eexists; reflexivity.
Qed.

Lemma client_base_url_witness :
  newWordPressClient (config blog_client) = Return blog_client.
Proof.
  apply (proj1 (proj1 (client_base_url (config blog_client)) eq_refl)
           "https://blog.example.com").
  reflexivity.
Defined.

End SiteMore.

(** ** Properties of resource URIs *)

Module ResourceFacts.

Import Resources ResourceExamples.

Lemma append_String x (a b : string) : String x a +:+ b = String x (a +:+ b).
Proof. reflexivity. Qed.

Lemma strip_prefix_app (p s : string) : strip_prefix p (p +:+ s) = Some s.
Proof.
  induction p as [| a p IH]; [reflexivity |].
  rewrite append_String. simpl. rewrite Ascii.eqb_refl. exact IH.
Qed.

Lemma strip_prefix_Some (p s rest : string) :
  strip_prefix p s = Some rest -> s = p +:+ rest.
Proof.
  revert s. induction p as [| a p IH]; intros s; simpl.
  - intros [= ->]. reflexivity.
  - destruct s as [| b s]; [discriminate |].
    destruct (Ascii.eqb a b) eqn:Hab; [| discriminate].
    apply Ascii.eqb_eq in Hab. subst b.
    intros H. rewrite (IH s H). reflexivity.
Qed.

Lemma split_on_cons c s : exists run runs, split_on c s = run :: runs.
Proof.
  induction s as [| x s IH]; simpl; [eauto |].
  destruct (Ascii.eqb x c); [eauto |].
  destruct IH as [run [runs ->]]. eauto.
Qed.

Lemma split_on_plain c s :
  contains_char c s = false -> split_on c s = [s].
Proof.
  induction s as [| x s IH]; simpl; [reflexivity |].
  destruct (Ascii.eqb x c); simpl; [discriminate |].
  intros H. rewrite IH by exact H. reflexivity.
Qed.

Lemma split_on_app c (a b : string) :
  contains_char c a = false ->
  split_on c (a +:+ String c b) = a :: split_on c b.
Proof.
  induction a as [| x a IH]; intros Ha.
  - change ("" +:+ String c b) with (String c b). simpl.
    rewrite Ascii.eqb_refl. reflexivity.
  - rewrite append_String. simpl in *.
    destruct (Ascii.eqb x c); simpl in Ha; [discriminate |].
    rewrite IH by exact Ha. reflexivity.
Qed.

Lemma split_on_join c s :
  String.concat (String c "") (split_on c s) = s.
Proof.
  induction s as [| x s IH]; [reflexivity |].
  simpl. destruct (split_on_cons c s) as [run [runs Hs]].
  rewrite Hs in *.
  destruct (Ascii.eqb x c) eqn:Hx.
  - apply Ascii.eqb_eq in Hx. subst x.
    change (String.concat (String c "") ("" :: run :: runs))
      with (String c (String.concat (String c "") (run :: runs))).
    rewrite IH. reflexivity.
  - destruct runs as [| run' runs].
    + simpl in *. rewrite IH. reflexivity.
    + change (String.concat (String c "") (String x run :: run' :: runs))
        with (String x (String.concat (String c "") (run :: run' :: runs))).
      rewrite IH. reflexivity.
Qed.

Lemma split_on_runs c s :
  Forall (fun run => contains_char c run = false) (split_on c s).
Proof.
  induction s as [| x s IH]; simpl.
  - repeat constructor.
  - destruct (Ascii.eqb x c) eqn:Hx.
    + constructor; [reflexivity | exact IH].
    + destruct (split_on c s) as [| run runs]; [repeat constructor; simpl; rewrite Hx; reflexivity |].
      inversion IH as [| ? ? Hrun Hruns]; subst.
      constructor; [| exact Hruns]. simpl. rewrite Hx, Hrun. reflexivity.
Qed.

Lemma occurrences_app c (a b : string) :
  occurrences c (a +:+ b) = occurrences c a + occurrences c b.
Proof.
  induction a as [| x a IH]; [reflexivity |].
  rewrite append_String. simpl. rewrite IH. lia.
Qed.

Lemma occurrences_contains c s :
  contains_char c s = true -> 1 <= occurrences c s.
Proof.
  induction s as [| x s IH]; simpl; [discriminate |].
  destruct (Ascii.eqb x c); simpl; [lia |].
  intros H. apply IH in H. lia.
Qed.

(** The number of runs is one more than the number of separators. *)
Lemma split_on_length c s :
  length (split_on c s) = S (occurrences c s).
Proof.
  induction s as [| x s IH]; [reflexivity |].
  simpl. destruct (Ascii.eqb x c); simpl; [rewrite IH; reflexivity |].
  destruct (split_on c s); simpl in *; [discriminate | exact IH].
Qed.

(** X29: [parse] undoes [create] exactly on components that are not
    empty and hold no slash: for such a site, type and id the URI made
    from them parses back to them, and for any other triple the URI that
    [create] makes is one that [parse] rejects. *)
Theorem parse_create site type id :
  parse (create site type id)
  = if component site && component type && component id
    then Some {| site := site; type := type; id := id |}
    else None.
Proof.
  unfold parse, create.
  change (SCHEME +:+ "://" +:+ site +:+ "/" +:+ type +:+ "/" +:+ id)
    with ((SCHEME +:+ "://")
            +:+ (site +:+ String "/" (type +:+ String "/" id))).
  rewrite strip_prefix_app. unfold component.
  set (rest := site +:+ String "/" (type +:+ String "/" id)).
  assert (Hlen : length (split_on "/" rest)
                 = 3 + occurrences "/" site + occurrences "/" type
                   + occurrences "/" id).
  { rewrite split_on_length. unfold rest.
    rewrite occurrences_app. simpl. rewrite occurrences_app. simpl. lia. }
  destruct (contains_char "/" site) eqn:Hs;
    [| destruct (contains_char "/" type) eqn:Ht;
       [| destruct (contains_char "/" id) eqn:Hi]].
  - apply occurrences_contains in Hs.
    destruct (split_on "/" rest) as [| a [| b [| c [| d l]]]];
      simpl in Hlen; try lia;
      destruct (String.eqb site ""), (String.eqb type ""),
               (String.eqb id ""); reflexivity.
  - apply occurrences_contains in Ht.
    destruct (split_on "/" rest) as [| a [| b [| c [| d l]]]];
      simpl in Hlen; try lia;
      destruct (String.eqb site ""), (String.eqb type ""),
               (String.eqb id ""); reflexivity.
  - apply occurrences_contains in Hi.
    destruct (split_on "/" rest) as [| a [| b [| c [| d l]]]];
      simpl in Hlen; try lia;
      destruct (String.eqb site ""), (String.eqb type ""),
               (String.eqb id ""); reflexivity.
  - unfold rest.
    rewrite split_on_app by exact Hs.
    rewrite split_on_app by exact Ht.
    rewrite split_on_plain by exact Hi.
    destruct (String.eqb site ""), (String.eqb type ""), (String.eqb id "");
      reflexivity.
Qed.

(** X30: a URI that [parse] accepts is the one [create] makes from the
    components [parse] returns, and these are not empty and hold no
    slash. *)
Theorem parse_is_canonical uri parsed :
  parse uri = Some parsed ->
  uri = create (site parsed) (type parsed) (id parsed)
  /\ component (site parsed) = true
  /\ component (type parsed) = true
  /\ component (id parsed) = true.
Proof.
  unfold parse.
  destruct (strip_prefix (SCHEME +:+ "://") uri) as [rest |] eqn:Hprefix;
    [| discriminate].
  apply strip_prefix_Some in Hprefix.
  destruct (split_on "/" rest) as [| s [| t [| i [| x l]]]] eqn:Hsplit;
    try discriminate.
  destruct (String.eqb s "") eqn:Hs; [discriminate |].
  destruct (String.eqb t "") eqn:Ht; [discriminate |].
  destruct (String.eqb i "") eqn:Hi; [discriminate |].
  intros [= <-]. simpl.
  pose proof (split_on_join "/" rest) as Hjoin.
  pose proof (split_on_runs "/" rest) as Hruns.
  rewrite Hsplit in Hjoin, Hruns.
  apply List.Forall_cons_iff in Hruns as [Hs' Hruns].
  apply List.Forall_cons_iff in Hruns as [Ht' Hruns].
  apply List.Forall_cons_iff in Hruns as [Hi' _].
  unfold component. rewrite Hs, Ht, Hi, Hs', Ht', Hi'.
  split; [| auto].
  rewrite Hprefix, <- Hjoin. reflexivity.
Qed.

Lemma parse_is_canonical_witness :
  "wordpress://blog/posts/42" = create "blog" "posts" "42".
Proof.
  apply (parse_is_canonical "wordpress://blog/posts/42"
           {| site := "blog"; type := "posts"; id := "42" |}).
  reflexivity.
Defined.

End ResourceFacts.
